(** * passff-host: the PassFF native-messaging host (src/passff.py)

    A shallow embedding of [passff.py] and proofs about its message framing,
    its translation of requests into [pass] command lines, the merging of
    gpg options into PASSWORD_STORE_GPG_OPTS and the classifier
    [cleanStderr] that turns gpg's diagnostic stream into a cleaned log and
    a 16-bit error code.

    Modelling conventions.
    - A Python [str] is a [string]; a character is an 8-bit code point
      (U+0000 .. U+00FF).  Text with code points above U+00FF is outside the
      model.  On that range [\d] is [0-9] and [\s] / [str.isspace] is
      U+0009..U+000D, U+001C..U+0020, U+0085 and U+00A0.
    - Python [bytes] are [list byte].
    - Python integers are [Z]; the limit that recent versions of Python put
      on the number of digits [int] converts is not modelled.
    - A [dict] used as a map is a [gmap]; a [dict] whose iteration order
      matters is an association list in insertion order.
    - Exceptions and [sys.exit] are the constructors [Raise] and [Exit] of
      [result].
    - Standard input is the list of the bytes still to be read, standard
      output the list of the bytes written; [sys.stdout] encodes text as
      UTF-8.
    - Regular expressions are values of [Re.regex], run by a backtracking
      matcher with Python's leftmost, greedy semantics. *)

From Stdlib Require Import ZArith NArith Bool List String Ascii Lia.
From Stdlib Require Strings.Byte.
From stdpp Require Import base gmap strings.
Import ListNotations.
Local Open Scope string_scope.
Local Open Scope list_scope.

(** ** Python built-ins used by the program *)

Module Py.

Definition NL : ascii := "010"%char.
Definition DQUOTE : ascii := "034"%char.

(** [str.isspace] on one character, which is also the class [\s]. *)
Definition is_space (c : ascii) : bool :=
  let n := N_of_ascii c in
  ((9 <=? n) && (n <=? 13) || (28 <=? n) && (n <=? 32)
   || (n =? 133) || (n =? 160))%N.

(** The class [\d], and the digits [int] accepts. *)
Definition is_digit (c : ascii) : bool :=
  let n := N_of_ascii c in ((48 <=? n) && (n <=? 57))%N.

Definition digit_value (c : ascii) : Z := Z.of_N (N_of_ascii c) - 48.

(** [int(s)] for a string of decimal digits. *)
Fixpoint int_acc (acc : Z) (s : string) : Z :=
  match s with
  | EmptyString => acc
  | String c s' => int_acc (10 * acc + digit_value c) s'
  end.
Definition int (s : string) : Z := int_acc 0 s.

(** What follows the prefix [p] of [s], if [s] starts with [p]. *)
Fixpoint drop_prefix (p s : string) : option string :=
  match p with
  | EmptyString => Some s
  | String a p' =>
      match s with
      | String b s' => if Ascii.eqb a b then drop_prefix p' s' else None
      | EmptyString => None
      end
  end.

(** [s.startswith(p)] *)
Fixpoint startswith (p s : string) : bool :=
  match p with
  | EmptyString => true
  | String a p' =>
      match s with
      | String b s' => Ascii.eqb a b && startswith p' s'
      | EmptyString => false
      end
  end.


(** [sub in s] *)
Fixpoint contains (sub s : string) : bool :=
  startswith sub s
  || match s with
     | EmptyString => false
     | String _ s' => contains sub s'
     end.

(** Number of positions of [s] at which [sub] occurs. *)
Fixpoint occurrences (sub s : string) : nat :=
  (if startswith sub s then 1 else 0)
  + match s with
    | EmptyString => 0
    | String _ s' => occurrences sub s'
    end.

(** [s.split(sep)] for a one-character separator. *)
Fixpoint split (sep : ascii) (s : string) : list string :=
  match s with
  | EmptyString => [EmptyString]
  | String c s' =>
      if Ascii.eqb c sep then EmptyString :: split sep s'
      else match split sep s' with
           | h :: t => String c h :: t
           | [] => [String c EmptyString]
           end
  end.

(** [sep.join(xs)] *)
Fixpoint join (sep : string) (xs : list string) : string :=
  match xs with
  | [] => EmptyString
  | [x] => x
  | x :: rest => x +:+ sep +:+ join sep rest
  end.

Fixpoint drop_while (p : ascii -> bool) (s : string) : string :=
  match s with
  | EmptyString => EmptyString
  | String c s' => if p c then drop_while p s' else s
  end.

Fixpoint all_chars (p : ascii -> bool) (s : string) : bool :=
  match s with
  | EmptyString => true
  | String c s' => p c && all_chars p s'
  end.

Definition lstrip (s : string) : string := drop_while is_space s.

Fixpoint rstrip (s : string) : string :=
  match s with
  | EmptyString => EmptyString
  | String c s' =>
      match rstrip s' with
      | EmptyString => if is_space c then EmptyString else String c EmptyString
      | r => String c r
      end
  end.

(** [s.strip()] *)
Definition strip (s : string) : string := rstrip (lstrip s).

(** The index a slice bound denotes in a sequence of length [len]:
    a negative bound counts from the end, and the result is clamped. *)
Definition slice_index (len : nat) (i : Z) : nat :=
  let j := (if i <? 0 then i + Z.of_nat len else i)%Z in
  Z.to_nat (Z.min (Z.max 0 j) (Z.of_nat len)).

(** [l[:stop] = new] *)
Definition assign_slice_to {A} (l : list A) (stop : Z) (new : list A) : list A :=
  new ++ skipn (slice_index (List.length l) stop) l.

(** The truth value of a list: it is not empty. *)
Definition truthy {A} (l : list A) : bool :=
  match l with
  | [] => false
  | _ :: _ => true
  end.

(** [l[-1] += x] on a list of strings; the caller has checked [l] is not
    empty (on an empty list Python raises IndexError, which no call of the
    program can reach). *)
Fixpoint append_to_last (l : list string) (x : string) : list string :=
  match l with
  | [] => []
  | [y] => [y +:+ x]
  | y :: l' => y :: append_to_last l' x
  end.

End Py.

(** ** The fragment of Python's [re] the program uses *)

Module Re.

Inductive regex : Type :=
| Empty
| Char (c : ascii)
| Class (p : ascii -> bool)
| Seq (r1 r2 : regex)
| Alt (r1 r2 : regex)
| Star (r : regex)
| Group (r : regex).

Definition Plus (r : regex) : regex := Seq r (Star r).
Definition Opt (r : regex) : regex := Alt r Empty.

Fixpoint Lit (s : string) : regex :=
  match s with
  | EmptyString => Empty
  | String c s' => Seq (Char c) (Lit s')
  end.

Definition Digit : regex := Class Py.is_digit.
Definition Space : regex := Class Py.is_space.
Definition NonSpace : regex := Class (fun c => negb (Py.is_space c)).
Definition Dot : regex := Class (fun c => negb (Ascii.eqb c Py.NL)).

(** The text a sub-match consumed: [s'] is what is left of [s]. *)
Definition consumed (s s' : string) : string :=
  String.substring 0 (String.length s - String.length s') s.

(** The iteration of [Star]: try the body once more, and stop where that
    fails.  An iteration must consume input, so the length of the input
    bounds the number of iterations; [fuel] is that bound. *)
Fixpoint star_loop {R : Type}
         (body : string -> list string ->
                 (string -> list string -> option R) -> option R)
         (k : string -> list string -> option R)
         (fuel : nat) (s : string) (caps : list string) : option R :=
  match fuel with
  | O => k s caps
  | S fuel' =>
      match body s caps
              (fun s' caps' =>
                 if Nat.ltb (String.length s') (String.length s)
                 then star_loop body k fuel' s' caps' else None) with
      | Some x => Some x
      | None => k s caps
      end
  end.

(** Backtracking matcher in continuation-passing style.  [k] receives the
    rest of the input and the groups closed so far; the first alternative
    that lets [k] succeed wins, and [Star] is greedy. *)
Fixpoint run {R : Type} (r : regex) (s : string) (caps : list string)
         (k : string -> list string -> option R) {struct r} : option R :=
  match r with
  | Empty => k s caps
  | Char c =>
      match s with
      | String c' s' => if Ascii.eqb c c' then k s' caps else None
      | EmptyString => None
      end
  | Class p =>
      match s with
      | String c' s' => if p c' then k s' caps else None
      | EmptyString => None
      end
  | Seq r1 r2 => run r1 s caps (fun s' caps' => run r2 s' caps' k)
  | Alt r1 r2 =>
      match run r1 s caps k with
      | Some x => Some x
      | None => run r2 s caps k
      end
  | Star r1 => star_loop (run r1) k (String.length s) s caps
  | Group r1 =>
      run r1 s caps (fun s' caps' => k s' (caps' ++ [consumed s s']))
  end.

(** [re.match(r, s)]: the groups and the unmatched rest, if [r] matches at
    the start of [s]. *)
Definition re_match (r : regex) (s : string) : option (list string * string) :=
  run r s [] (fun s' caps => Some (caps, s')).

(** [re.search(r, s)]: the leftmost match. *)
Fixpoint re_search (r : regex) (s : string) : option (list string * string) :=
  match re_match r s with
  | Some x => Some x
  | None =>
      match s with
      | EmptyString => None
      | String _ s' => re_search r s'
      end
  end.

(** [m.group(i)] for [i >= 1]. *)
Definition group (m : list string * string) (i : nat) : string :=
  nth (i - 1) (fst m) EmptyString.

(** [re.sub(r, repl, s)] for a pattern that cannot match the empty string
    (all the program's patterns start with a literal).  [skip] counts the
    characters of the current match still to be dropped. *)
Fixpoint sub_from (r : regex) (repl : string) (skip : nat) (s : string) : string :=
  match s with
  | EmptyString => EmptyString
  | String c s' =>
      match skip with
      | S n => sub_from r repl n s'
      | O =>
          match re_match r s with
          | Some (_, rest) =>
              match String.length s - String.length rest with
              | S n => repl +:+ sub_from r repl n s'
              | O => String c (sub_from r repl 0 s')
              end
          | None => String c (sub_from r repl 0 s')
          end
      end
  end.

Definition re_sub (r : regex) (repl : string) (s : string) : string :=
  sub_from r repl 0 s.

End Re.

(** ** Exceptions and early exit *)

Inductive exn : Type :=
| IndexError
| KeyError
| TypeError
| StructError
| UnicodeDecodeError
| JSONDecodeError
| ValueError
| OSError        (* what [subprocess.run] may raise when the tool cannot be started *)
| Unmodelled.    (* the input leaves the modelled fragment (a float, a code point above U+00FF) *)

Inductive result (A : Type) : Type :=
| Ok (a : A)
| Exit (code : Z)      (* [sys.exit(code)] *)
| Raise (e : exn).
Arguments Ok {A} a.
Arguments Exit {A} code.
Arguments Raise {A} e.

Definition bind {A B : Type} (x : result A) (f : A -> result B) : result B :=
  match x with
  | Ok a => f a
  | Exit c => Exit c
  | Raise e => Raise e
  end.

Notation "'let*' p ':=' e1 'in' e2" := (bind e1 (fun p => e2))
  (at level 10, p pattern, e1 at level 100, e2 at level 200).

(** ** [shlex.quote] *)

Module Shlex.
Import Py.

Definition in_range (lo hi : N) (c : ascii) : bool :=
  let n := N_of_ascii c in ((lo <=? n) && (n <=? hi))%N.

Fixpoint mem_char (c : ascii) (s : string) : bool :=
  match s with
  | EmptyString => false
  | String d s' => Ascii.eqb c d || mem_char c s'
  end.

(** A character outside [[^\w@%+=:,./-]] with [re.ASCII]. *)
Definition is_safe (c : ascii) : bool :=
  in_range 48 57 c || in_range 65 90 c || in_range 97 122 c
  || mem_char c "_@%+=:,./-".

(** [s.replace] of every single quote by the five characters
    single quote, double quote, single quote, double quote, single quote. *)
Fixpoint replace_quotes (s : string) : string :=
  match s with
  | EmptyString => EmptyString
  | String c s' =>
      if Ascii.eqb c "'"
      then String "'" (String DQUOTE (String "'" (String DQUOTE (String "'" (replace_quotes s')))))
      else String c (replace_quotes s')
  end.

Definition quote (s : string) : string :=
  match s with
  | EmptyString => "''"
  | _ => if all_chars is_safe s then s
         else "'" +:+ replace_quotes s +:+ "'"
  end.

End Shlex.

(** ** [json.dumps] and [json.loads] *)

Module Json.
Import Py.

(** The values [json.loads] returns.  An object is a [dict], kept as the
    list of its items in insertion order; floats are outside the model. *)
#[warnings="-register-all"]
Inductive json : Type :=
| JNull
| JBool (b : bool)
| JInt (n : Z)
| JStr (s : string)
| JArr (l : list json)
| JObj (l : list (string * json)).

(** *** Serialisation (default arguments: [ensure_ascii=True], separators
    [", "] and [": "]) *)

Definition digit_char (d : Z) : ascii := ascii_of_N (Z.to_N (48 + d)).

(** The decimal digits of [n >= 0], most significant first, in front of
    [acc].  [fuel] bounds the number of digits. *)
Fixpoint digits_acc (fuel : nat) (n : Z) (acc : string) : string :=
  match fuel with
  | O => acc
  | S fuel' =>
      let acc' := String (digit_char (n mod 10)) acc in
      if (n <? 10)%Z then acc' else digits_acc fuel' (n / 10) acc'
  end.

(** [repr(n)] for an integer. *)
Definition repr_int (n : Z) : string :=
  let digits m := digits_acc (S (Z.to_nat (Z.log2 m))) m EmptyString in
  if (n <? 0)%Z then String "-" (digits (- n)%Z) else digits n.

Definition hex_char (d : N) : ascii :=
  ascii_of_N (if (d <? 10)%N then 48 + d else 87 + d).

(** One character of a string under [ensure_ascii]. *)
Definition escape_char (c : ascii) : string :=
  let n := N_of_ascii c in
  if Ascii.eqb c DQUOTE then String "\" (String DQUOTE EmptyString)
  else if Ascii.eqb c "\" then "\\"
  else if (n =? 10)%N then "\n"
  else if (n =? 13)%N then "\r"
  else if (n =? 9)%N then "\t"
  else if (n =? 8)%N then "\b"
  else if (n =? 12)%N then "\f"
  else if ((32 <=? n) && (n <=? 126))%N then String c EmptyString
  else "\u00" +:+ String (hex_char (n / 16)) (String (hex_char (n mod 16)) EmptyString).

Fixpoint escape (s : string) : string :=
  match s with
  | EmptyString => EmptyString
  | String c s' => escape_char c +:+ escape s'
  end.

Definition dumps_str (s : string) : string :=
  String DQUOTE (escape s +:+ String DQUOTE EmptyString).

Fixpoint dumps (v : json) : string :=
  match v with
  | JNull => "null"
  | JBool true => "true"
  | JBool false => "false"
  | JInt n => repr_int n
  | JStr s => dumps_str s
  | JArr l => "[" +:+ join ", " (List.map dumps l) +:+ "]"
  | JObj l =>
      "{" +:+ join ", "
                (List.map (fun kv => dumps_str (fst kv) +:+ ": " +:+ dumps (snd kv)) l)
          +:+ "}"
  end.

(** *** Parsing *)

Definition is_ws (c : ascii) : bool :=
  let n := N_of_ascii c in ((n =? 32) || (n =? 9) || (n =? 10) || (n =? 13))%N.

Definition skip_ws (s : string) : string := drop_while is_ws s.

Definition hex_value (c : ascii) : option N :=
  let n := N_of_ascii c in
  if ((48 <=? n) && (n <=? 57))%N then Some (n - 48)%N
  else if ((97 <=? n) && (n <=? 102))%N then Some (n - 87)%N
  else if ((65 <=? n) && (n <=? 70))%N then Some (n - 55)%N
  else None.

(** [\uXXXX]: the code point of four hexadecimal digits. *)
Definition hex4 (a b c d : ascii) : option N :=
  match hex_value a, hex_value b, hex_value c, hex_value d with
  | Some x, Some y, Some z, Some w => Some (((x * 16 + y) * 16 + z) * 16 + w)%N
  | _, _, _, _ => None
  end.

(** The body of a string literal, after its opening quote: the decoded
    string and the input after the closing quote. *)
Fixpoint scanstring (s : string) : result (string * string) :=
  match s with
  | EmptyString => Raise JSONDecodeError
  | String c s' =>
      if Ascii.eqb c DQUOTE then Ok (EmptyString, s')
      else if Ascii.eqb c "\" then
        match s' with
        | EmptyString => Raise JSONDecodeError
        | String e s'' =>
            let simple (d : ascii) :=
              let* (r, rest) := scanstring s'' in Ok (String d r, rest) in
            if Ascii.eqb e DQUOTE then simple DQUOTE
            else if Ascii.eqb e "\" then simple "\"%char
            else if Ascii.eqb e "/" then simple "/"%char
            else if Ascii.eqb e "b" then simple "008"%char
            else if Ascii.eqb e "f" then simple "012"%char
            else if Ascii.eqb e "n" then simple "010"%char
            else if Ascii.eqb e "r" then simple "013"%char
            else if Ascii.eqb e "t" then simple "009"%char
            else if Ascii.eqb e "u" then
              match s'' with
              | String h1 (String h2 (String h3 (String h4 s4))) =>
                  match hex4 h1 h2 h3 h4 with
                  | Some n =>
                      if (n <? 256)%N
                      then let* (r, rest) := scanstring s4 in
                           Ok (String (ascii_of_N n) r, rest)
                      else Raise Unmodelled
                  | None => Raise JSONDecodeError
                  end
              | _ => Raise JSONDecodeError
              end
            else Raise JSONDecodeError
        end
      else if (N_of_ascii c <? 32)%N then Raise JSONDecodeError
      else let* (r, rest) := scanstring s' in Ok (String c r, rest)
  end.

(** The longest run of digits at the start of [s], and what follows. *)
Fixpoint span_digits (s : string) : string * string :=
  match s with
  | EmptyString => (EmptyString, EmptyString)
  | String c s' =>
      if is_digit c
      then let '(d, r) := span_digits s' in (String c d, r)
      else (EmptyString, s)
  end.

Definition starts_with_digit (s : string) : bool :=
  match s with
  | String c _ => is_digit c
  | EmptyString => false
  end.

(** Does a fraction [\.\d+] or an exponent [[eE][-+]?\d+] start here?
    Then the number is a float. *)
Definition float_tail (s : string) : bool :=
  match s with
  | String c s' =>
      if Ascii.eqb c "." then starts_with_digit s'
      else if Ascii.eqb c "e" || Ascii.eqb c "E" then
        match s' with
        | String d s'' =>
            if Ascii.eqb d "+" || Ascii.eqb d "-" then starts_with_digit s''
            else is_digit d
        | EmptyString => false
        end
      else false
  | EmptyString => false
  end.

(** The integer part of a number: a single 0, or a digit other than 0
    followed by any digits. *)
Definition scan_natural (s : string) : result (Z * string) :=
  match s with
  | String c s' =>
      if Ascii.eqb c "0" then Ok (0%Z, s')
      else if is_digit c then
        let '(d, r) := span_digits s in Ok (int d, r)
      else Raise JSONDecodeError
  | EmptyString => Raise JSONDecodeError
  end.

Definition scan_number (s : string) : result (json * string) :=
  let signed :=
    match s with
    | String "-" s' => let* (m, r) := scan_natural s' in Ok ((- m)%Z, r)
    | _ => scan_natural s
    end in
  let* (n, rest) := signed in
  if float_tail rest then Raise Unmodelled else Ok (JInt n, rest).

(** [d[k] = v] on a dict kept as its list of items. *)
Fixpoint dict_set (l : list (string * json)) (k : string) (v : json)
  : list (string * json) :=
  match l with
  | [] => [(k, v)]
  | (k', v') :: l' =>
      if String.eqb k' k then (k', v) :: l' else (k', v') :: dict_set l' k v
  end.

(** Recursive descent; every call passes less fuel and the entry point
    gives more fuel than the text has characters. *)
Fixpoint scan_once (fuel : nat) (s : string) : result (json * string) :=
  match fuel with
  | O => Raise Unmodelled
  | S fuel' =>
      match s with
      | EmptyString => Raise JSONDecodeError
      | String c s' =>
          if Ascii.eqb c DQUOTE then
            let* (x, rest) := scanstring s' in Ok (JStr x, rest)
          else if Ascii.eqb c "{" then
            match skip_ws s' with
            | String "}" rest => Ok (JObj [], rest)
            | rest => parse_members fuel' rest []
            end
          else if Ascii.eqb c "[" then
            match skip_ws s' with
            | String "]" rest => Ok (JArr [], rest)
            | rest => parse_items fuel' rest []
            end
          else
            match drop_prefix "null" s, drop_prefix "true" s,
                  drop_prefix "false" s with
            | Some rest, _, _ => Ok (JNull, rest)
            | _, Some rest, _ => Ok (JBool true, rest)
            | _, _, Some rest => Ok (JBool false, rest)
            | None, None, None =>
                match drop_prefix "NaN" s, drop_prefix "Infinity" s,
                      drop_prefix "-Infinity" s with
                | None, None, None => scan_number s
                | _, _, _ => Raise Unmodelled
                end
            end
      end
  end
(** The items of an array from the start of an item on; [acc] holds the
    items already read. *)
with parse_items (fuel : nat) (s : string) (acc : list json)
  : result (json * string) :=
  match fuel with
  | O => Raise Unmodelled
  | S fuel' =>
      let* (v, rest) := scan_once fuel' s in
      match skip_ws rest with
      | String "]" rest' => Ok (JArr (acc ++ [v]), rest')
      | String "," rest' => parse_items fuel' (skip_ws rest') (acc ++ [v])
      | _ => Raise JSONDecodeError
      end
  end
(** The members of an object from the opening quote of a key on. *)
with parse_members (fuel : nat) (s : string) (acc : list (string * json))
  : result (json * string) :=
  match fuel with
  | O => Raise Unmodelled
  | S fuel' =>
      match s with
      | String c s' =>
          if Ascii.eqb c DQUOTE then
            let* (key, rest) := scanstring s' in
            match skip_ws rest with
            | String ":" rest1 =>
                let* (v, rest2) := scan_once fuel' (skip_ws rest1) in
                match skip_ws rest2 with
                | String "}" rest3 => Ok (JObj (dict_set acc key v), rest3)
                | String "," rest3 =>
                    parse_members fuel' (skip_ws rest3) (dict_set acc key v)
                | _ => Raise JSONDecodeError
                end
            | _ => Raise JSONDecodeError
            end
          else Raise JSONDecodeError
      | EmptyString => Raise JSONDecodeError
      end
  end.

(** [json.loads(s)]: one value, with white space around it and nothing
    else. *)
Definition loads (s : string) : result json :=
  let* (v, rest) := scan_once (S (String.length s)) (skip_ws s) in
  match skip_ws rest with
  | EmptyString => Ok v
  | _ => Raise JSONDecodeError
  end.

End Json.

(** ** [struct.pack], [struct.unpack] and the UTF-8 codec *)

Module Codec.

Definition byte_of_Z (n : Z) : Byte.byte :=
  match Byte.of_N (Z.to_N (n mod 256)) with
  | Some b => b
  | None => Byte.x00
  end.
Definition Z_of_byte (b : Byte.byte) : Z := Z.of_N (Byte.to_N b).

(** [struct.pack('@I', n)]: four bytes in the byte order of the host. *)
Definition pack_I (big_endian : bool) (n : Z) : result (list Byte.byte) :=
  if ((0 <=? n) && (n <? 2 ^ 32))%Z then
    let le := [byte_of_Z n; byte_of_Z (Z.shiftr n 8);
               byte_of_Z (Z.shiftr n 16); byte_of_Z (Z.shiftr n 24)] in
    Ok (if big_endian then rev le else le)
  else Raise StructError.

(** [struct.unpack('@I', b)[0]] *)
Definition unpack_I (big_endian : bool) (b : list Byte.byte) : result Z :=
  match (if big_endian then rev b else b) with
  | [b0; b1; b2; b3] =>
      Ok (Z.lor (Z_of_byte b0)
            (Z.lor (Z.shiftl (Z_of_byte b1) 8)
               (Z.lor (Z.shiftl (Z_of_byte b2) 16) (Z.shiftl (Z_of_byte b3) 24))))
  | _ => Raise StructError
  end.

(** [s.encode("utf-8")] *)
Fixpoint utf8_encode (s : string) : list Byte.byte :=
  match s with
  | EmptyString => []
  | String c s' =>
      let n := Z.of_N (N_of_ascii c) in
      if (n <? 128)%Z then byte_of_Z n :: utf8_encode s'
      else byte_of_Z (192 + Z.shiftr n 6) :: byte_of_Z (128 + Z.land n 63)
             :: utf8_encode s'
  end.

(** [b.decode("utf-8")] *)
Fixpoint utf8_decode (b : list Byte.byte) : result string :=
  match b with
  | [] => Ok EmptyString
  | x :: b' =>
      let n := Z_of_byte x in
      if (n <? 128)%Z then
        let* s := utf8_decode b' in Ok (String (ascii_of_N (Z.to_N n)) s)
      else if (n <? 194)%Z then Raise UnicodeDecodeError
      else if (n <? 196)%Z then
        match b' with
        | y :: b'' =>
            let m := Z_of_byte y in
            if ((128 <=? m) && (m <? 192))%Z then
              let* s := utf8_decode b'' in
              Ok (String (ascii_of_N (Z.to_N ((n - 192) * 64 + (m - 128)))) s)
            else Raise UnicodeDecodeError
        | [] => Raise UnicodeDecodeError
        end
      else if (n <? 245)%Z then Raise Unmodelled
      else Raise UnicodeDecodeError
  end.

End Codec.

(** ** Python's dynamic operations on decoded JSON values *)

Module Dyn.
Import Py Json.

(** [len(x)] *)
Definition py_len (x : json) : result nat :=
  match x with
  | JStr s => Ok (String.length s)
  | JArr l => Ok (List.length l)
  | JObj l => Ok (List.length l)
  | _ => Raise TypeError
  end.

(** [x[i]] for an integer [i >= 0].  The keys of a decoded object are
    strings, so an integer is never one of them. *)
Definition py_getitem (x : json) (i : nat) : result json :=
  match x with
  | JStr s =>
      match String.get i s with
      | Some c => Ok (JStr (String c EmptyString))
      | None => Raise IndexError
      end
  | JArr l =>
      match nth_error l i with
      | Some v => Ok v
      | None => Raise IndexError
      end
  | JObj _ => Raise KeyError
  | _ => Raise TypeError
  end.

(** [x[i:]] for an integer [i >= 0]. *)
Definition py_slice_from (x : json) (i : nat) : result json :=
  match x with
  | JStr s => Ok (JStr (String.substring i (String.length s - i) s))
  | JArr l => Ok (JArr (skipn i l))
  | _ => Raise TypeError
  end.

(** [x == s] for a string [s]. *)
Definition py_eq_str (x : json) (s : string) : bool :=
  match x with
  | JStr t => String.eqb t s
  | _ => false
  end.

(** [s in x] for a string [s]. *)
Definition py_in (s : string) (x : json) : result bool :=
  match x with
  | JStr t => Ok (contains s t)
  | JArr l => Ok (existsb (fun v => py_eq_str v s) l)
  | JObj l => Ok (existsb (fun kv => String.eqb (fst kv) s) l)
  | _ => Raise TypeError
  end.

(** [s + x] for a string [s]. *)
Definition py_str_add (s : string) (x : json) : result json :=
  match x with
  | JStr t => Ok (JStr (s +:+ t))
  | _ => Raise TypeError
  end.

(** The truth value of [x]. *)
Definition py_bool (x : json) : bool :=
  match x with
  | JNull => false
  | JBool b => b
  | JInt n => negb (n =? 0)%Z
  | JStr s => negb (String.eqb s EmptyString)
  | JArr l => negb (Nat.eqb (List.length l) 0)
  | JObj l => negb (Nat.eqb (List.length l) 0)
  end.

Fixpoint chars (s : string) : list string :=
  match s with
  | EmptyString => []
  | String c s' => String c EmptyString :: chars s'
  end.

Fixpoint all_str (l : list json) : result (list string) :=
  match l with
  | [] => Ok []
  | JStr s :: l' => let* r := all_str l' in Ok (s :: r)
  | _ :: _ => Raise TypeError
  end.

(** [sep.join(x)]: [x] is iterated, and every item must be a string. *)
Definition py_join (sep : string) (x : json) : result string :=
  match x with
  | JStr s => Ok (join sep (chars s))
  | JArr l => let* items := all_str l in Ok (join sep items)
  | JObj l => Ok (join sep (List.map fst l))
  | _ => Raise TypeError
  end.

End Dyn.

(** ** The program *)

Module Passff.
Import Py Re Json Codec Dyn.

Definition VERSION : string := "_VERSIONHOLDER_".
Definition COMMAND : string := "pass".
Definition COMMAND_ARGS : list string := [].
Definition COMMAND_ENV : list (string * string) :=
  [("TREE_CHARSET", "ISO-8859-1");
   ("PATH", "/usr/local/bin:/usr/bin:/bin:/usr/sbin:/sbin")].

(** What [encodeMessage] returns: the dict with the keys [length] and
    [content]. *)
Record encoded : Type := { enc_length : list Byte.byte; enc_content : string }.

(** What [subprocess.run] returns. *)
Record completed : Type :=
  { returncode : Z; proc_stdout : list Byte.byte; proc_stderr : list Byte.byte }.

Definition GPG_OPTS : string := "PASSWORD_STORE_GPG_OPTS".

(** The pattern [setFlags] builds for [flag]: two dashes and the flag
    name, then optionally an equals sign or a run of white space followed
    by a run of characters that are not white space.  The name is taken
    literally, as it is for a flag name without characters that are
    special in a regular expression. *)
Definition flag_pattern (flag : string) : regex :=
  Seq (Lit "--")
    (Seq (Lit flag)
       (Opt (Seq (Alt (Char "=") (Plus Space)) (Star NonSpace)))).

(** The body of the loop of [setFlags]: the new value of [opts]. *)
Definition setFlags_body (opts : string) (item : string * string) : string :=
  let '(flag, value) := item in
  let value :=
    if negb (String.eqb value EmptyString)
    then "=" +:+ Shlex.quote value else value in
  "--" +:+ flag +:+ value +:+ " " +:+ re_sub (flag_pattern flag) "" opts.

Definition setFlags (env : gmap string string) (flags : list (string * string))
  : gmap string string :=
  let opts := default EmptyString (env !! GPG_OPTS) in
  let opts := fold_left setFlags_body flags opts in
  <[GPG_OPTS := strip opts]> env.

Definition ERROR_CODE_PAT : regex :=
  Seq (Lit "ERROR pkdecrypt_failed") (Seq (Char " ") (Group (Plus Digit))).
Definition CHAN_ERROR_PAT : regex :=
  Seq (Lit "gpg: DBG: chan_")
    (Seq (Plus Digit)
       (Seq (Char " ")
          (Seq (Alt (Lit "<-") (Lit "->"))
             (Seq (Lit " ERR ") (Group (Plus Digit)))))).
Definition GPG_STATUS_PAT : regex := Seq (Lit "[GNUPG:]") (Group (Star Dot)).
Definition ENC_TO : string := "ENC_TO".
Definition BEGIN_DECRYPTION : string := "BEGIN_DECRYPTION".
Definition END_DECRYPTION : string := "END_DECRYPTION".
Definition NO_SECKEY : string := "NO_SECKEY".

(** How one pass through the body of a [for] loop ends. *)
Inductive control (S : Type) : Type :=
| Next (s : S)
| Break (s : S).
Arguments Next {S} s.
Arguments Break {S} s.

(** The body of the loop of [cleanStderr] on the state
    [(preserve, error_code)]. *)
Definition cleanStderr_body (line : string) (st : list string * Z)
  : control (list string * Z) :=
  let '(preserve, error_code) := st in
  match re_search CHAN_ERROR_PAT line with
  | Some m => Next (preserve, Z.land (int (group m 1)) 0xFFFF)
  | None =>
      match re_match GPG_STATUS_PAT line with
      | Some _ =>
          match re_search ERROR_CODE_PAT line with
          | Some m => Next (preserve, Z.land (int (group m 1)) 0xFFFF)
          | None =>
              if contains NO_SECKEY line then Next (preserve, 17%Z)
              else if contains ENC_TO line then Next ([], error_code)
              else if contains BEGIN_DECRYPTION line
                   then Next (assign_slice_to preserve (-1) [], error_code)
              else if contains END_DECRYPTION line
                   then Break (preserve, error_code)
              else Next (preserve, error_code)
          end
      | None =>
          if truthy preserve && startswith "  " line
          then Next (append_to_last preserve (String NL line), error_code)
          else Next (preserve ++ [line], error_code)
      end
  end.

Fixpoint cleanStderr_loop (lines : list string) (st : list string * Z)
  : list string * Z :=
  match lines with
  | [] => st
  | line :: rest =>
      match cleanStderr_body line st with
      | Next st' => cleanStderr_loop rest st'
      | Break st' => st'
      end
  end.

(** The loop and the final filter and join, on the list of lines. *)
Definition cleanLines (lines : list string) : string * Z :=
  let '(preserve, error_code) := cleanStderr_loop lines ([], 0%Z) in
  (join (String NL EmptyString)
     (List.filter (fun x => negb (startswith "gpg: DBG:" x)) preserve),
   error_code).

Definition cleanStderr (stderr : string) : string * Z :=
  cleanLines (split NL stderr).

(** [key = "/" + (key[1:] if key[0] == "/" else key)] *)
Definition normalize_key (key : json) : result json :=
  let* first := py_getitem key 0 in
  let* tail := (if py_eq_str first "/" then py_slice_from key 1 else Ok key) in
  py_str_add "/" tail.

(** The dispatch on the request: [(opt_args, pos_args, std_input)], where
    [JNull] stands for [None]. *)
Definition dispatch (receivedMessage : json)
  : result (list string * list json * json) :=
  let* n := py_len receivedMessage in
  let* (opt_args, pos_args, std_input) :=
    (if Nat.eqb n 0 then Ok (["show"], [JStr "/"], JNull)
     else
       let* m0 := py_getitem receivedMessage 0 in
       if py_eq_str m0 "insert" then
         let* m1 := py_getitem receivedMessage 1 in
         let* m2 := py_getitem receivedMessage 2 in
         Ok (["insert"; "-m"], [m1], m2)
       else if py_eq_str m0 "generate" then
         let* m1 := py_getitem receivedMessage 1 in
         let* m2 := py_getitem receivedMessage 2 in
         let* flags := py_slice_from receivedMessage 3 in
         let* no_symbols := py_in "-n" flags in
         Ok (if no_symbols then ["generate"; "-n"] else ["generate"],
             [m1; m2], JNull)
       else if py_eq_str m0 "grepMetaUrls" && Nat.eqb n 2 then
         let* url_field_names := py_getitem receivedMessage 1 in
         let* alternatives := py_join "|" url_field_names in
         Ok (["grep"; "-iE"], [JStr ("^(" +:+ alternatives +:+ "):")], JNull)
       else if py_eq_str m0 "otp" && Nat.eqb n 2 then
         let* key := py_getitem receivedMessage 1 in
         let* key := normalize_key key in
         Ok (["otp"], [key], JNull)
       else
         let* key := py_getitem receivedMessage 0 in
         let* key := normalize_key key in
         Ok (["show"], [key], JNull)) in
  Ok (opt_args ++ COMMAND_ARGS, pos_args, std_input).

(** [[COMMAND] + opt_args + ['--'] + pos_args] *)
Definition command_line (opt_args : list string) (pos_args : list json)
  : list json :=
  [JStr COMMAND] ++ List.map JStr opt_args ++ [JStr "--"] ++ pos_args.

Section Host.

(** The byte order of the host, for the format ['@I']. *)
Variable big_endian : bool.

(** [subprocess.run(cmd, input=..., stdout=PIPE, stderr=PIPE, env=...)]
    on a command line of strings. *)
Variable subprocess_run :
  list string -> option (list Byte.byte) -> gmap string string -> result completed.

(** [os.path.expanduser('~')] *)
Variable home : string.

(** [getMessage] on the bytes that standard input still holds. *)
Definition getMessage (stdin : list Byte.byte) : result json :=
  let rawLength := firstn 4 stdin in
  if Nat.eqb (List.length rawLength) 0 then Exit 0
  else
    let* messageLength := unpack_I big_endian rawLength in
    let* message :=
      utf8_decode (firstn (Z.to_nat messageLength) (skipn 4 stdin)) in
    loads message.

Definition encodeMessage (messageContent : json) : result encoded :=
  let encodedContent := dumps messageContent in
  let* encodedLength :=
    pack_I big_endian (Z.of_nat (String.length encodedContent)) in
  Ok {| enc_length := encodedLength; enc_content := encodedContent |}.

(** [sendMessage]: what standard output holds afterwards ([sys.stdout]
    encodes text as UTF-8). *)
Definition sendMessage (encodedMessage : encoded) (stdout : list Byte.byte)
  : list Byte.byte :=
  stdout ++ enc_length encodedMessage ++ utf8_encode (enc_content encodedMessage).

(** The environment of the child process. *)
Definition command_env (environ : gmap string string) : gmap string string :=
  let env := environ in
  let env :=
    match env !! "HOME" with
    | Some _ => env
    | None => <["HOME" := home]> env
    end in
  let env := fold_left (fun e kv => <[fst kv := snd kv]> e) COMMAND_ENV env in
  setFlags env [("status-fd", "2"); ("debug", "ipc")].

(** The script under [if __name__ == "__main__"]: the result of the run,
    with what it wrote to standard output. *)
Definition script (stdin : list Byte.byte) (environ : gmap string string)
  : result (list Byte.byte) :=
  let* receivedMessage := getMessage stdin in
  let* (opt_args, pos_args, std_input) := dispatch receivedMessage in
  let env := command_env environ in
  let cmd := command_line opt_args pos_args in
  let* input :=
    (if py_bool std_input then
       match std_input with
       | JStr s => Ok (Some (utf8_encode s))
       | _ => Raise TypeError
       end
     else Ok None) in
  let* argv := all_str cmd in
  let* proc := subprocess_run argv input env in
  let* decoded_stderr := utf8_decode (proc_stderr proc) in
  let '(stderr, error_code) := cleanStderr decoded_stderr in
  let* decoded_stdout := utf8_decode (proc_stdout proc) in
  let* message :=
    encodeMessage
      (JObj [("exitCode", JInt (returncode proc));
             ("stdout", JStr decoded_stdout);
             ("stderr", JStr stderr);
             ("errorCode", JInt error_code);
             ("version", JStr VERSION)]) in
  Ok (sendMessage message []).

(** A run of the process: the bytes written to standard output and how
    the process ended. *)
Definition main (stdin : list Byte.byte) (environ : gmap string string)
  : list Byte.byte * result unit :=
  match script stdin environ with
  | Ok out => (out, Ok ())
  | Exit code => ([], Exit code)
  | Raise e => ([], Raise e)
  end.

End Host.

End Passff.

(** ** Vocabulary of the statements *)

Module Spec.
Import Py Re Json Codec Dyn Passff.

(** What a line of the diagnostic stream is to [cleanStderr]: the branch
    of the loop body that the line selects. *)
Inductive event : Type :=
| ChanError (code : Z)       (* a channel error, with the code masked *)
| DecryptFailed (code : Z)   (* status line with ERROR pkdecrypt_failed *)
| NoSecKey
| EncTo
| BeginDecryption
| EndDecryption
| OtherStatus                (* any other status line *)
| Text.                      (* a line that is kept *)

Definition classify (line : string) : event :=
  match re_search CHAN_ERROR_PAT line with
  | Some m => ChanError (Z.land (int (group m 1)) 0xFFFF)
  | None =>
      match re_match GPG_STATUS_PAT line with
      | Some _ =>
          match re_search ERROR_CODE_PAT line with
          | Some m => DecryptFailed (Z.land (int (group m 1)) 0xFFFF)
          | None =>
              if contains NO_SECKEY line then NoSecKey
              else if contains ENC_TO line then EncTo
              else if contains BEGIN_DECRYPTION line then BeginDecryption
              else if contains END_DECRYPTION line then EndDecryption
              else OtherStatus
          end
      | None => Text
      end
  end.

Definition is_end (line : string) : bool :=
  match classify line with
  | EndDecryption => true
  | _ => false
  end.

(** Lines that assign a code taken from the line itself. *)
Definition reports_code (line : string) : bool :=
  match classify line with
  | ChanError _ | DecryptFailed _ => true
  | _ => false
  end.

Definition is_text (line : string) : bool :=
  match classify line with
  | Text => true
  | _ => false
  end.

(** A request that starts with a string and has none of the shapes the
    dispatch names: not an insert, not a generate, and neither a
    grepMetaUrls nor an otp request of two elements. *)
Definition bare_key_request (key : string) (rest : list json) : bool :=
  negb (String.eqb key "insert")
  && negb (String.eqb key "generate")
  && negb (String.eqb key "grepMetaUrls" && Nat.eqb (List.length rest) 1)
  && negb (String.eqb key "otp" && Nat.eqb (List.length rest) 1).

(** Key normalisation in the words of the specification: one separator is
    put in front of a key that does not start with one, and a key that
    starts with one is left as it is. *)
Definition with_leading_separator (key : string) : string :=
  if startswith "/" key then key else "/" +:+ key.

(** What is left of [r], the text after a flag name, once the optional
    value of the flag is taken away: after an equals sign the characters
    up to the next white space, after white space that white space and
    the characters up to the next white space. *)
Definition after_flag (r : string) : string :=
  match r with
  | EmptyString => EmptyString
  | String c r' =>
      if Ascii.eqb c "=" then drop_while (fun x => negb (is_space x)) r'
      else if is_space c
           then drop_while (fun x => negb (is_space x)) (drop_while is_space r')
           else r
  end.

(** The flag [--flag] with its optional value at the start of [s]: the
    text after it. *)
Definition flag_match (flag s : string) : option string :=
  match drop_prefix ("--" +:+ flag) s with
  | Some r => Some (after_flag r)
  | None => None
  end.

(** The end of the text, an equals sign or white space. *)
Definition starts_delimited (r : string) : bool :=
  match r with
  | EmptyString => true
  | String c _ => Ascii.eqb c "=" || is_space c
  end.

(** Wherever [--flag] occurs in [s], it is followed by the end of the
    text, an equals sign or white space. *)
Fixpoint flag_delimited (flag s : string) : bool :=
  match drop_prefix ("--" +:+ flag) s with
  | Some r => starts_delimited r
  | None => true
  end
  && match s with
     | EmptyString => true
     | String _ s' => flag_delimited flag s'
     end.

(** [flag] and its value removed wherever the pattern matches. *)
Definition remove_flag (flag s : string) : string :=
  re_sub (flag_pattern flag) EmptyString s.

(** No character of [q] is white space. *)
Definition no_space (q : string) : bool :=
  all_chars (fun c => negb (is_space c)) q.

(** The text is empty or starts with white space. *)
Definition ws_start (t : string) : bool :=
  match t with
  | EmptyString => true
  | String c _ => is_space c
  end.

(** The flags the program passes to [setFlags]. *)
Definition REQUIRED_FLAGS : list (string * string) :=
  [("status-fd", "2"); ("debug", "ipc")].

(** The response of the program, and the dict the program builds for
    it. *)
Record Response : Type :=
  { exitCode : Z; stdout : string; stderr : string; errorCode : Z;
    version : string }.

Definition response_json (r : Response) : json :=
  JObj [("exitCode", JInt (exitCode r));
        ("stdout", JStr (stdout r));
        ("stderr", JStr (stderr r));
        ("errorCode", JInt (errorCode r));
        ("version", JStr (version r))].

(** The text of one member of an object, and what follows it. *)
Definition member_int (key : string) (n : Z) (rest : string) : string :=
  String DQUOTE
    (escape key +:+ String DQUOTE (String ":" (String " " (repr_int n +:+ rest)))).

Definition member_str (key value rest : string) : string :=
  String DQUOTE
    (escape key
       +:+ String DQUOTE
             (String ":" (String " "
                (String DQUOTE (escape value +:+ String DQUOTE rest))))).

(** The JSON text of a response, member after member. *)
Definition response_text (r : Response) : string :=
  String "{"
    (member_int "exitCode" (exitCode r)
       (String "," (String " "
          (member_str "stdout" (stdout r)
             (String "," (String " "
                (member_str "stderr" (stderr r)
                   (String "," (String " "
                      (member_int "errorCode" (errorCode r)
                         (String "," (String " "
                            (member_str "version" (version r) "}"))))))))))))).

Definition is_ascii (c : ascii) : bool := (N_of_ascii c <? 128)%N.

(** A response whose standard output has 2^32 characters. *)
Definition huge_stdout : string := N.iter (2 ^ 32) (String "a") EmptyString.

Definition huge_response : Response :=
  {| exitCode := 0; stdout := huge_stdout; stderr := EmptyString;
     errorCode := 0; version := VERSION |}.

End Spec.

(** ** Vocabulary of the further statements *)

Module More.
Import Py Re Json Codec Dyn Passff Spec.

Definition is_no_seckey (line : string) : bool :=
  match classify line with
  | NoSecKey => true
  | _ => false
  end.

(** Lines that leave the code as it is. *)
Definition keeps_code (line : string) : bool :=
  negb (reports_code line) && negb (is_no_seckey line).

(** The prefix of the entries that [cleanStderr] filters out. *)
Definition DEBUG_PREFIX : string := "gpg: DBG:".

(** A line that is kept and is no debug line. *)
Definition plain_line (line : string) : bool :=
  is_text line && negb (startswith DEBUG_PREFIX line).

(** No character of [l] is a line feed. *)
Definition no_nl (l : string) : bool :=
  all_chars (fun c => negb (Ascii.eqb c NL)) l.

(** A line of [input] that is kept. *)
Definition kept_line (input : list string) (l : string) : Prop :=
  In l input /\ is_text l = true.

(** An entry of the preserved lines: a kept line of [input], followed by
    kept lines of [input] that are indented. *)
Definition entry_of (input : list string) (e : string) : Prop :=
  exists h conts,
    split NL e = h :: conts
    /\ kept_line input h
    /\ Forall (fun c => kept_line input c /\ startswith "  " c = true) conts.

(** The option lists the dispatch can produce. *)
Definition OPTION_LISTS : list (list string) :=
  [["show"]; ["insert"; "-m"]; ["generate"]; ["generate"; "-n"];
   ["grep"; "-iE"]; ["otp"]].

(** The requests made of strings only on which the dispatch yields a
    command: an insert or generate request needs a path and a second
    argument, and the key of an otp or show request must not be empty. *)
Definition request_accepted (strs : list string) : bool :=
  match strs with
  | [] => true
  | first :: rest =>
      if String.eqb first "insert" || String.eqb first "generate"
      then Nat.leb 2 (List.length rest)
      else if String.eqb first "grepMetaUrls" && Nat.eqb (List.length rest) 1
      then true
      else if String.eqb first "otp" && Nat.eqb (List.length rest) 1
      then negb (String.eqb (nth 0 rest EmptyString) EmptyString)
      else negb (String.eqb first EmptyString)
  end.

(** *** Messages in general *)

(** What can follow a value in a text that [dumps] wrote: nothing, or a
    comma or the bracket that closes an array or an object. *)
Definition closes (tail : string) : bool :=
  match tail with
  | EmptyString => true
  | String c _ => Ascii.eqb c "," || Ascii.eqb c "]" || Ascii.eqb c "}"
  end.

Fixpoint distinct (keys : list string) : bool :=
  match keys with
  | [] => true
  | k :: keys' => negb (existsb (String.eqb k) keys') && distinct keys'
  end.

(** The values a [dict] can hold: no key occurs twice in an object, at
    any depth. *)
Fixpoint distinct_keys (v : json) : bool :=
  match v with
  | JArr l => forallb distinct_keys l
  | JObj l =>
      distinct (List.map fst l)
      && forallb (fun kv => distinct_keys (snd kv)) l
  | _ => true
  end.

(** The fuel that reading [v] back takes. *)
Fixpoint cost (v : json) : nat :=
  match v with
  | JArr l => S (fold_right (fun x n => S (cost x + n)) 0 l)
  | JObj l => S (fold_right (fun kv n => S (cost (snd kv) + n)) 0 l)
  | _ => 1
  end.

(** A value that is read back from its text, whatever closes it. *)
Definition reads_back (v : json) : Prop :=
  distinct_keys v = true ->
  forall fuel tail,
    cost v <= fuel -> closes tail = true ->
    scan_once fuel (dumps v +:+ tail) = Ok (v, tail).

(** The text of one member of an object. *)
Definition member (kv : string * json) : string :=
  dumps_str (fst kv) +:+ ": " +:+ dumps (snd kv).

(** *** The test harness (test.py, [call_hacked_passff]) *)

(** [b'\xFF\xFF\xFF\xFF' + json.dumps(message).encode()] *)
Definition harness_request (message : json) : list Byte.byte :=
  [Byte.xff; Byte.xff; Byte.xff; Byte.xff] ++ utf8_encode (dumps message).

(** [json.loads(payload[4:].decode())] *)
Definition harness_response (payload : list Byte.byte) : result json :=
  let* text := utf8_decode (skipn 4 payload) in
  loads text.

(** *** Sample runs *)

(** A tool that succeeds and writes nothing. *)
Definition quiet_tool
  : list string -> option (list Byte.byte) -> gmap string string
    -> result completed :=
  fun _ _ _ => Ok {| returncode := 0; proc_stdout := []; proc_stderr := [] |}.

(** The request to insert the secret [s] at [/a], framed on a
    little-endian host: its text has 21 characters. *)
Definition insert_request : json := JArr [JStr "insert"; JStr "/a"; JStr "s"].

Definition insert_frame : list Byte.byte :=
  [Byte.x15; Byte.x00; Byte.x00; Byte.x00] ++ utf8_encode (dumps insert_request).

(** A request that holds a character outside ASCII, U+00E9: its text
    has 11 characters, the escape taking six of them. *)
Definition accented_request : json :=
  JArr [JStr (String "/" (String "233"%char EmptyString))].



End More.

Import Py Re Json Codec Dyn Passff Spec.

(** * Proofs *)

(** ** Strings *)

Lemma split_nonempty (sep : ascii) (s : string) : split sep s <> [].
Proof.
  destruct s as [|c s]; simpl; [discriminate|].
  destruct (Ascii.eqb c sep); [discriminate|].
  destruct (split sep s); discriminate.
Qed.

Lemma split_app (sep : ascii) (a b : string) :
  split sep (a +:+ String sep b) = split sep a ++ split sep b.
Proof.
  induction a as [|c a IH]; simpl.
  - now rewrite Ascii.eqb_refl.
  - destruct (Ascii.eqb c sep); [now rewrite IH|].
    rewrite IH. pose proof (split_nonempty sep a) as Hne.
    destruct (split sep a); [congruence|reflexivity].
Qed.

(** ** The classifier *)

Section Classifier.

Implicit Types (line : string) (preserve : list string) (error_code : Z).

(** The loop body does what the event of the line says. *)
Lemma body_classify line preserve error_code :
  cleanStderr_body line (preserve, error_code) =
  match classify line with
  | ChanError c | DecryptFailed c => Next (preserve, c)
  | NoSecKey => Next (preserve, 17%Z)
  | EncTo => Next ([], error_code)
  | BeginDecryption => Next (assign_slice_to preserve (-1) [], error_code)
  | EndDecryption => Break (preserve, error_code)
  | OtherStatus => Next (preserve, error_code)
  | Text =>
      if truthy preserve && startswith "  " line
      then Next (append_to_last preserve (String NL line), error_code)
      else Next (preserve ++ [line], error_code)
  end.
Proof.
  unfold cleanStderr_body, classify.
  destruct (re_search CHAN_ERROR_PAT line); [reflexivity|].
  destruct (re_match GPG_STATUS_PAT line); [|reflexivity].
  destruct (re_search ERROR_CODE_PAT line); [reflexivity|].
  repeat match goal with |- context [if ?b then _ else _] => destruct b end;
    reflexivity.
Qed.


Lemma body_end line st :
  is_end line = true -> cleanStderr_body line st = Break st.
Proof.
  destruct st as [p e]. unfold is_end. rewrite body_classify.
  destruct (classify line); try discriminate; reflexivity.
Qed.


(** Nothing after an end marker is looked at. *)
Lemma loop_end (pre post : list string) line st :
  is_end line = true ->
  cleanStderr_loop (pre ++ line :: post) st = cleanStderr_loop (pre ++ [line]) st.
Proof.
  intros Hend. revert st. induction pre as [|l pre IH]; intros st; simpl.
  - now rewrite body_end.
  - destruct (cleanStderr_body l st); [apply IH|reflexivity].
Qed.




Lemma assign_slice_keep_last {A : Type} (init : list A) (x : A) :
  assign_slice_to (init ++ [x]) (-1) [] = [x].
Proof.
  unfold assign_slice_to, slice_index. simpl app.
  rewrite length_app. simpl List.length.
  replace (Z.to_nat _) with (List.length init).
  - rewrite skipn_app, skipn_all, Nat.sub_diag. reflexivity.
  - change (-1 <? 0)%Z with true. cbv iota. lia.
Qed.

End Classifier.

(** C4: a status line that announces the beginning of a decryption cuts the
    preserved lines down to the last one: an empty sequence stays empty, and
    of a sequence that ends with [x] only [x] is left.  The code is not
    touched and the loop goes on. *)
Theorem begin_decryption_keeps_last (line : string) (error_code : Z) :
  classify line = BeginDecryption ->
  cleanStderr_body line ([], error_code) = Next ([], error_code)
  /\ forall (init : list string) (x : string),
       cleanStderr_body line (init ++ [x], error_code) = Next ([x], error_code).
Proof.
  intros H. split; [|intros init x]; rewrite body_classify, H.
  - reflexivity.
  - now rewrite assign_slice_keep_last.
Qed.

Lemma begin_decryption_keeps_last_witness :
  classify "[GNUPG:] BEGIN_DECRYPTION" = BeginDecryption
  /\ cleanStderr_body "[GNUPG:] BEGIN_DECRYPTION" (["a"; "b"] ++ ["c"], 5%Z)
     = Next (["c"], 5%Z).
Proof.
  split; [reflexivity|].
  apply (begin_decryption_keeps_last "[GNUPG:] BEGIN_DECRYPTION" 5); reflexivity.
Defined.

(** C5: the loop body breaks on a status line that announces the end of the
    decryption, and whatever follows such a line in the stream changes
    neither the cleaned log nor the code: the result is that of the stream
    cut after the marker. *)
Theorem end_decryption_stops (stream line after : string) (lines : list string) :
  split NL stream = lines ++ [line] ->
  classify line = EndDecryption ->
  (forall st, cleanStderr_body line st = Break st)
  /\ cleanStderr (stream +:+ String NL after) = cleanStderr stream.
Proof.
  intros Hsplit Hline.
  assert (Hend : is_end line = true) by (unfold is_end; now rewrite Hline).
  split; [intros st; now apply body_end|].
  unfold cleanStderr, cleanLines.
  rewrite split_app, Hsplit, <- app_assoc. simpl app.
  now rewrite loop_end.
Qed.

Lemma end_decryption_stops_witness :
  cleanStderr (("a" +:+ String NL "[GNUPG:] END_DECRYPTION")
                 +:+ String NL ("b" +:+ String NL "gpg: DBG: chan_1 -> ERR 5"))
  = cleanStderr ("a" +:+ String NL "[GNUPG:] END_DECRYPTION").
Proof.
  exact (proj2 (end_decryption_stops
                  ("a" +:+ String NL "[GNUPG:] END_DECRYPTION")
                  "[GNUPG:] END_DECRYPTION"
                  ("b" +:+ String NL "gpg: DBG: chan_1 -> ERR 5")
                  ["a"] eq_refl eq_refl)).
Defined.






(** ** The command translator *)

Lemma substring_all (s : string) : String.substring 0 (String.length s) s = s.
Proof. induction s as [|c s IH]; simpl; [reflexivity|now rewrite IH]. Qed.

Lemma normalize_key_nonempty (c : ascii) (key : string) :
  normalize_key (JStr (String c key))
  = Ok (JStr (with_leading_separator (String c key))).
Proof.
  unfold normalize_key, with_leading_separator.
  cbn [py_getitem String.get bind py_eq_str startswith String.eqb].
  rewrite andb_true_r, (Ascii.eqb_sym "/"%char c).
  destruct (Ascii.eqb_spec c "/") as [->|Hne].
  - cbn [py_slice_from String.length bind py_str_add].
    change (S (String.length key) - 1) with (String.length key - 0).
    rewrite Nat.sub_0_r. cbn [String.substring].
    now rewrite substring_all.
  - reflexivity.
Qed.

Lemma normalize_key_empty : normalize_key (JStr "") = Raise IndexError.
Proof. reflexivity. Qed.

Lemma dispatch_bare_key (key : string) (rest : list json) :
  bare_key_request key rest = true ->
  dispatch (JArr (JStr key :: rest))
  = (let* k := normalize_key (JStr key) in Ok (["show"], [k], JNull)).
Proof.
  unfold bare_key_request. intros H.
  repeat (apply andb_prop in H as [H ?]).
  unfold dispatch. cbn [py_len bind List.length Nat.eqb py_getitem nth_error py_eq_str].
  repeat match goal with
         | Hb : negb _ = true |- _ => apply negb_true_iff in Hb
         end.
  rewrite H, H2.
  change (Nat.eqb (S (List.length rest)) 2) with (Nat.eqb (List.length rest) 1).
  rewrite H1, H0.
  destruct (normalize_key (JStr key)); reflexivity.
Qed.

(** C7, where it holds and where it fails: a request that starts with a
    non-empty string and has none of the named shapes is translated like a
    show of that key, normalised as the specification says, and the command
    line is [pass show -- key].  On the empty key the code raises
    IndexError, where the specification asks for [pass show -- /]. *)
Theorem show_fallback (key : string) (rest : list json) :
  bare_key_request key rest = true ->
  (key <> EmptyString ->
   dispatch (JArr (JStr key :: rest))
   = Ok (["show"], [JStr (with_leading_separator key)], JNull)
   /\ command_line ["show"] [JStr (with_leading_separator key)]
      = [JStr "pass"; JStr "show"; JStr "--"; JStr (with_leading_separator key)])
  /\ (key = EmptyString ->
      with_leading_separator key = "/"
      /\ dispatch (JArr (JStr key :: rest)) = Raise IndexError).
Proof.
  intros H. rewrite (dispatch_bare_key key rest H). split.
  - intros Hne. destruct key as [|c key]; [congruence|].
    rewrite normalize_key_nonempty. split; reflexivity.
  - intros ->. split; reflexivity.
Qed.

Lemma show_fallback_witness :
  dispatch (JArr [JStr "mail/x"; JStr "extra"]) = Ok (["show"], [JStr "/mail/x"], JNull)
  /\ dispatch (JArr [JStr ""]) = Raise IndexError.
Proof.
  split.
  - apply (proj1 (show_fallback "mail/x" [JStr "extra"] eq_refl)). discriminate.
  - apply (proj2 (show_fallback "" [] eq_refl)). reflexivity.
Defined.

Section HostRuns.

Variable big_endian : bool.
Variable subprocess_run :
  list string -> option (list Byte.byte) -> gmap string string -> result completed.
Variable home : string.

(** A request the dispatch raises on ends the process without output. *)
Lemma main_dispatch_raises stdin environ request e :
  getMessage big_endian stdin = Ok request ->
  dispatch request = Raise e ->
  main big_endian subprocess_run home stdin environ = ([], Raise e).
Proof.
  intros Hget Hdisp. unfold main, script. rewrite Hget. cbn [bind].
  rewrite Hdisp. reflexivity.
Qed.

End HostRuns.

(** C10: the key normalisation indexes the first character of the key, so
    on the empty key it raises IndexError.  A request whose first element is
    the empty string, and the request [["otp", ""]], therefore yield no
    command, and a process that reads such a request ends with that
    exception and writes nothing to standard output. *)
Theorem empty_key_raises
        (big_endian : bool)
        (subprocess_run :
           list string -> option (list Byte.byte) -> gmap string string -> result completed)
        (home : string) (stdin : list Byte.byte) (environ : gmap string string)
        (request : json) :
  getMessage big_endian stdin = Ok request ->
  (exists rest, request = JArr (JStr "" :: rest))
  \/ request = JArr [JStr "otp"; JStr ""] ->
  normalize_key (JStr "") = Raise IndexError
  /\ dispatch request = Raise IndexError
  /\ main big_endian subprocess_run home stdin environ = ([], Raise IndexError).
Proof.
  intros Hget Hshape.
  assert (Hd : dispatch request = Raise IndexError).
  { destruct Hshape as [[rest ->] | ->]; [|reflexivity].
    rewrite dispatch_bare_key by reflexivity. reflexivity. }
  split; [reflexivity|]. split; [exact Hd|].
  now apply main_dispatch_raises with (request := request).
Qed.

Lemma empty_key_raises_witness :
  main false (fun _ _ _ => Raise OSError) "/root"
       [Byte.x04; Byte.x00; Byte.x00; Byte.x00; Byte.x5b; Byte.x22; Byte.x22; Byte.x5d]
       ∅
  = ([], Raise IndexError).
Proof.
  apply (empty_key_raises false (fun _ _ _ => Raise OSError) "/root"
           [Byte.x04; Byte.x00; Byte.x00; Byte.x00; Byte.x5b; Byte.x22; Byte.x22; Byte.x5d]
           ∅ (JArr [JStr ""])).
  - reflexivity.
  - left. exists []. reflexivity.
Defined.

(** ** The matcher *)

Section Matcher.

Context {R : Type}.
Implicit Types (k : string -> list string -> option R).

Lemma run_lit (p : string) k : forall s caps,
  run (Lit p) s caps k =
  match drop_prefix p s with
  | Some r => k r caps
  | None => None
  end.
Proof.
  induction p as [|a p IH]; intros s caps; [reflexivity|].
  cbn [Lit run drop_prefix]. destruct s as [|b s]; [reflexivity|].
  destruct (Ascii.eqb a b); [apply IH|reflexivity].
Qed.

(** A greedy run of a character class in front of a continuation that
    cannot fail takes every character of the class. *)
Lemma star_loop_class_total (p : ascii -> bool) k :
  (forall s caps, k s caps <> None) ->
  forall fuel s caps,
    String.length s <= fuel ->
    star_loop (run (Class p)) k fuel s caps = k (drop_while p s) caps.
Proof.
  intros Htotal. induction fuel as [|fuel IH]; intros s caps Hlen.
  - destruct s; [reflexivity|simpl in Hlen; lia].
  - cbn [star_loop run]. destruct s as [|c s]; [reflexivity|].
    cbn [drop_while]. destruct (p c); [|reflexivity].
    cbn [String.length] in *.
    replace (Nat.ltb (String.length s) (S (String.length s))) with true
      by (symmetry; apply Nat.ltb_lt; lia).
    rewrite IH by lia.
    destruct (k (drop_while p s) caps) eqn:E; [reflexivity|].
    now apply Htotal in E.
Qed.

Lemma run_star_class_total (p : ascii -> bool) k s caps :
  (forall s caps, k s caps <> None) ->
  run (Star (Class p)) s caps k = k (drop_while p s) caps.
Proof.
  intros Htotal. cbn [run]. now apply star_loop_class_total.
Qed.

End Matcher.

Lemma drop_prefix_app (p q s : string) :
  drop_prefix (p +:+ q) s =
  match drop_prefix p s with
  | Some r => drop_prefix q r
  | None => None
  end.
Proof.
  revert s. induction p as [|a p IH]; intros s; [reflexivity|].
  change (String a p +:+ q) with (String a (p +:+ q)).
  cbn [drop_prefix]. destruct s as [|b s]; [reflexivity|].
  destruct (Ascii.eqb a b); [apply IH|reflexivity].
Qed.

(** The matcher depends on its continuation only through the values the
    continuation takes. *)
Lemma star_loop_ext {R : Type}
      (body : string -> list string -> (string -> list string -> option R) -> option R)
      (k k' : string -> list string -> option R) :
  (forall s caps k1 k2,
      (forall s' caps', k1 s' caps' = k2 s' caps') -> body s caps k1 = body s caps k2) ->
  (forall s caps, k s caps = k' s caps) ->
  forall fuel s caps, star_loop body k fuel s caps = star_loop body k' fuel s caps.
Proof.
  intros Hbody Hk. induction fuel as [|fuel IH]; intros s caps; cbn [star_loop].
  - apply Hk.
  - rewrite Hk.
    rewrite (Hbody s caps _
               (fun s' caps' =>
                  if Nat.ltb (String.length s') (String.length s)
                  then star_loop body k' fuel s' caps' else None)).
    + reflexivity.
    + intros s' caps'. destruct (Nat.ltb _ _); [apply IH|reflexivity].
Qed.

Lemma run_ext {R : Type} (r : regex) :
  forall (k k' : string -> list string -> option R) s caps,
    (forall s' caps', k s' caps' = k' s' caps') ->
    run r s caps k = run r s caps k'.
Proof.
  induction r as [|c|p|r1 IH1 r2 IH2|r1 IH1 r2 IH2|r1 IH1|r1 IH1];
    intros k k' s caps Hk; cbn [run].
  - apply Hk.
  - destruct s as [|c' s]; [reflexivity|]. now rewrite Hk.
  - destruct s as [|c' s]; [reflexivity|]. now rewrite Hk.
  - apply IH1. intros s' caps'. now apply IH2.
  - now rewrite (IH1 k k' s caps Hk), (IH2 k k' s caps Hk).
  - apply star_loop_ext; [|exact Hk].
    intros s0 caps0 k1 k2 H12. now apply IH1.
  - apply IH1. intros s' caps'. apply Hk.
Qed.

Lemma run_seq {R : Type} r1 r2 s caps (k : string -> list string -> option R) :
  run (Seq r1 r2) s caps k = run r1 s caps (fun s' caps' => run r2 s' caps' k).
Proof. reflexivity. Qed.

Lemma run_alt {R : Type} r1 r2 s caps (k : string -> list string -> option R) :
  run (Alt r1 r2) s caps k =
  match run r1 s caps k with
  | Some x => Some x
  | None => run r2 s caps k
  end.
Proof. reflexivity. Qed.

(** What the pattern of a flag matches at the start of a text. *)
Lemma re_match_flag (flag s : string) :
  re_match (flag_pattern flag) s =
  match flag_match flag s with
  | Some rest => Some ([], rest)
  | None => None
  end.
Proof.
  unfold re_match, flag_pattern, flag_match.
  set (k0 := fun (s' : string) (caps : list string) => Some (caps, s')).
  assert (Hk0 : forall s caps, k0 s caps <> None) by (intros; discriminate).
  rewrite run_seq, run_lit, drop_prefix_app.
  destruct (drop_prefix "--" s) as [r1|]; [|reflexivity].
  rewrite run_seq, run_lit. destruct (drop_prefix flag r1) as [r|]; [|reflexivity].
  unfold Opt, Plus, Space, NonSpace.
  set (ns := fun c : ascii => negb (is_space c)).
  set (k1 := fun (s' : string) (caps : list string) => k0 (drop_while ns s') caps).
  assert (Hk1 : forall s caps, k1 s caps <> None) by (intros; discriminate).
  rewrite run_alt, run_seq.
  rewrite (run_ext _ _ k1)
    by (intros s' caps'; now apply run_star_class_total).
  rewrite run_alt, run_seq.
  rewrite (run_ext (Class is_space) _ (fun s' caps' => k1 (drop_while is_space s') caps'))
    by (intros s' caps'; now apply run_star_class_total).
  destruct r as [|c r]; [reflexivity|]. cbn [after_flag run].
  rewrite (Ascii.eqb_sym c "=").
  destruct (Ascii.eqb_spec "="%char c) as [<-|Hne]; [reflexivity|].
  destruct (is_space c); reflexivity.
Qed.

(** ** More on strings *)

Lemma app_cons_s (x : ascii) (a b : string) :
  String x a +:+ b = String x (a +:+ b).
Proof. reflexivity. Qed.

Lemma app_nil_l_s (a : string) : "" +:+ a = a.
Proof. reflexivity. Qed.

Lemma app_assoc_s (a b c : string) : (a +:+ b) +:+ c = a +:+ (b +:+ c).
Proof.
  induction a as [|x a IH]; [reflexivity|]. rewrite !app_cons_s. now f_equal.
Qed.

Lemma app_nil_r_s (a : string) : a +:+ "" = a.
Proof.
  induction a as [|x a IH]; [reflexivity|]. rewrite app_cons_s. now f_equal.
Qed.

Lemma length_app_s (a b : string) :
  String.length (a +:+ b) = String.length a + String.length b.
Proof.
  induction a as [|x a IH]; [reflexivity|].
  rewrite app_cons_s. cbn [String.length plus]. now f_equal.
Qed.

Lemma drop_prefix_Some (p s r : string) :
  drop_prefix p s = Some r -> s = p +:+ r.
Proof.
  revert s. induction p as [|a p IH]; intros s H; cbn [drop_prefix] in H.
  - now inversion H.
  - destruct s as [|b s]; [discriminate|].
    destruct (Ascii.eqb_spec a b) as [->|]; [|discriminate].
    rewrite app_cons_s. f_equal. now apply IH.
Qed.

Lemma drop_prefix_same (p r : string) : drop_prefix p (p +:+ r) = Some r.
Proof.
  induction p as [|a p IH]; [reflexivity|].
  change (String a p +:+ r) with (String a (p +:+ r)). cbn [drop_prefix].
  now rewrite Ascii.eqb_refl.
Qed.

Lemma startswith_drop_prefix (p s : string) :
  startswith p s = match drop_prefix p s with Some _ => true | None => false end.
Proof.
  revert s. induction p as [|a p IH]; intros s; [reflexivity|].
  cbn [startswith drop_prefix]. destruct s as [|b s]; [reflexivity|].
  destruct (Ascii.eqb a b); [apply IH|reflexivity].
Qed.

Lemma startswith_inv (p s : string) :
  startswith p s = true -> exists t, s = p +:+ t.
Proof.
  rewrite startswith_drop_prefix. destruct (drop_prefix p s) as [r|] eqn:E;
    [|discriminate].
  intros _. exists r. now apply drop_prefix_Some.
Qed.

Lemma startswith_same (p t : string) : startswith p (p +:+ t) = true.
Proof. now rewrite startswith_drop_prefix, drop_prefix_same. Qed.

Lemma drop_while_suffix (p : ascii -> bool) (s : string) :
  exists m, s = m +:+ drop_while p s.
Proof.
  induction s as [|c s [m IH]]; [now exists ""|].
  cbn [drop_while]. destruct (p c).
  - exists (String c m). rewrite app_cons_s. now f_equal.
  - now exists "".
Qed.

Lemma drop_while_not_space_ws_start (s : string) :
  ws_start (drop_while (fun c => negb (is_space c)) s) = true.
Proof.
  induction s as [|c s IH]; [reflexivity|]. cbn [drop_while].
  destruct (is_space c) eqn:E; cbn [negb]; [now cbn [ws_start]|exact IH].
Qed.

Lemma startswith_ws_start (q t : string) :
  q <> "" -> no_space q = true -> ws_start t = true -> startswith q t = false.
Proof.
  intros Hq Hns Hws. destruct q as [|a q]; [congruence|].
  destruct t as [|b t]; [reflexivity|]. cbn [startswith].
  cbn [no_space all_chars] in Hns. apply andb_prop in Hns as [Ha _].
  cbn [ws_start] in Hws.
  destruct (Ascii.eqb_spec a b) as [->|]; [|reflexivity].
  rewrite Hws in Ha. discriminate.
Qed.

(** ** Removing a flag *)

Lemma after_flag_suffix (r : string) : exists m, r = m +:+ after_flag r.
Proof.
  destruct r as [|c r]; [now exists ""|]. cbn [after_flag].
  destruct (Ascii.eqb c "=").
  - destruct (drop_while_suffix (fun x => negb (is_space x)) r) as [m Hm].
    exists (String c m). rewrite app_cons_s. now f_equal.
  - destruct (is_space c); [|now exists ""].
    destruct (drop_while_suffix is_space r) as [m1 Hm1].
    destruct (drop_while_suffix (fun x => negb (is_space x)) (drop_while is_space r))
      as [m2 Hm2].
    exists (String c (m1 +:+ m2)). rewrite app_cons_s. f_equal.
    rewrite app_assoc_s, <- Hm2. exact Hm1.
Qed.

(** A match consumes at least the two dashes. *)
Lemma flag_match_Some (flag s rest : string) :
  flag_match flag s = Some rest -> exists c m, s = String c m +:+ rest.
Proof.
  unfold flag_match. destruct (drop_prefix ("--" +:+ flag) s) as [r|] eqn:E;
    [|discriminate].
  intros H. inversion H; subst rest. clear H.
  apply drop_prefix_Some in E. destruct (after_flag_suffix r) as [m Hm].
  exists "-"%char, ("-" +:+ flag +:+ m). rewrite E at 1. rewrite Hm at 1.
  rewrite !app_cons_s, !app_nil_l_s, !app_assoc_s. reflexivity.
Qed.

Lemma sub_from_skip (r : regex) (repl m rest : string) :
  sub_from r repl (String.length m) (m +:+ rest) = sub_from r repl 0 rest.
Proof.
  induction m as [|a m IH]; [reflexivity|].
  change (String a m +:+ rest) with (String a (m +:+ rest)).
  cbn [String.length sub_from]. exact IH.
Qed.

Lemma remove_flag_nil (flag : string) : remove_flag flag "" = "".
Proof. reflexivity. Qed.

Lemma remove_flag_cons (flag : string) (c : ascii) (s : string) :
  remove_flag flag (String c s) =
  match flag_match flag (String c s) with
  | Some rest => remove_flag flag rest
  | None => String c (remove_flag flag s)
  end.
Proof.
  unfold remove_flag, re_sub. cbn [sub_from]. rewrite re_match_flag.
  destruct (flag_match flag (String c s)) as [rest|] eqn:E; [|reflexivity].
  destruct (flag_match_Some _ _ _ E) as (c0 & m & Hs).
  change (String c0 m +:+ rest) with (String c0 (m +:+ rest)) in Hs.
  inversion Hs; subst c0 s.
  replace (String.length (String c (m +:+ rest)) - String.length rest)
    with (S (String.length m))
    by (cbn [String.length]; rewrite length_app_s; lia).
  rewrite app_nil_l_s. apply sub_from_skip.
Qed.

Lemma flag_delimited_tail (flag : string) (c : ascii) (s : string) :
  flag_delimited flag (String c s) = true -> flag_delimited flag s = true.
Proof.
  cbn [flag_delimited]. intros H. now apply andb_prop in H as [_ H].
Qed.

Lemma flag_delimited_suffix (flag m s : string) :
  flag_delimited flag (m +:+ s) = true -> flag_delimited flag s = true.
Proof.
  induction m as [|a m IH]; [trivial|].
  change (String a m +:+ s) with (String a (m +:+ s)).
  intros H. apply IH. now apply flag_delimited_tail in H.
Qed.

Lemma flag_delimited_head (flag s r : string) :
  flag_delimited flag s = true ->
  drop_prefix ("--" +:+ flag) s = Some r -> starts_delimited r = true.
Proof.
  intros H E. destruct s; cbn [flag_delimited] in H; rewrite E in H;
    now apply andb_prop in H as [H _].
Qed.

Lemma after_flag_ws_start (r : string) :
  starts_delimited r = true -> ws_start (after_flag r) = true.
Proof.
  destruct r as [|c r]; [reflexivity|]. cbn [starts_delimited after_flag].
  destruct (Ascii.eqb c "="); cbn [orb].
  - intros _. apply drop_while_not_space_ws_start.
  - intros ->. apply drop_while_not_space_ws_start.
Qed.

Lemma flag_match_ws_start (flag s rest : string) :
  flag_delimited flag s = true ->
  flag_match flag s = Some rest -> ws_start rest = true.
Proof.
  intros Hd. unfold flag_match.
  destruct (drop_prefix ("--" +:+ flag) s) as [r|] eqn:E; [|discriminate].
  intros H. inversion H. apply after_flag_ws_start.
  now apply flag_delimited_head with (flag := flag) (s := s).
Qed.

(** ** The channel-error pattern on the lines gpg writes *)

Lemma run_star_class_cons {R : Type} (p : ascii -> bool) (c : ascii) (s : string)
      (caps : list string) (k : string -> list string -> option R) :
  run (Star (Class p)) (String c s) caps k =
  if p c
  then match run (Star (Class p)) s caps k with
       | Some x => Some x
       | None => k (String c s) caps
       end
  else k (String c s) caps.
Proof.
  cbn [run star_loop String.length]. destruct (p c); [|reflexivity].
  replace (Nat.ltb (String.length s) (S (String.length s))) with true
    by (symmetry; apply Nat.ltb_lt; lia).
  reflexivity.
Qed.

Lemma run_group {R : Type} r s caps (k : string -> list string -> option R) :
  run (Group r) s caps k
  = run r s caps (fun s' caps' => k s' (caps' ++ [consumed s s'])).
Proof. reflexivity. Qed.

Lemma run_class_cons {R : Type} p c s caps (k : string -> list string -> option R) :
  run (Class p) (String c s) caps k = if p c then k s caps else None.
Proof. reflexivity. Qed.

Lemma run_char_cons {R : Type} a c s caps (k : string -> list string -> option R) :
  run (Char a) (String c s) caps k = if Ascii.eqb a c then k s caps else None.
Proof. reflexivity. Qed.

(** A greedy run of a class takes all of [d] when the match goes through
    from there. *)
Lemma run_star_class_max {R : Type} (p : ascii -> bool) (d rest : string)
      (caps : list string) (k : string -> list string -> option R) (x : R) :
  all_chars p d = true ->
  run (Star (Class p)) rest caps k = Some x ->
  run (Star (Class p)) (d +:+ rest) caps k = Some x.
Proof.
  intros Hd Hrest. induction d as [|c d IH]; [exact Hrest|].
  cbn [all_chars] in Hd. apply andb_prop in Hd as [Hc Hd].
  rewrite app_cons_s, run_star_class_cons, Hc, (IH Hd). reflexivity.
Qed.

Lemma drop_while_app (p : ascii -> bool) (d rest : string) :
  all_chars p d = true ->
  drop_while p (d +:+ rest) = drop_while p rest.
Proof.
  intros Hd. induction d as [|c d IH]; [reflexivity|].
  cbn [all_chars] in Hd. apply andb_prop in Hd as [Hc Hd].
  rewrite app_cons_s. cbn [drop_while]. rewrite Hc. now apply IH.
Qed.

Lemma drop_while_digit_stop (tail : string) :
  starts_with_digit tail = false -> drop_while is_digit tail = tail.
Proof.
  destruct tail as [|c tail]; [reflexivity|].
  cbn [starts_with_digit drop_while]. now intros ->.
Qed.

Lemma consumed_app (d rest : string) : consumed (d +:+ rest) rest = d.
Proof.
  unfold consumed. rewrite length_app_s.
  replace (String.length d + String.length rest - String.length rest)
    with (String.length d) by lia.
  induction d as [|c d IH]; [now destruct rest|].
  rewrite app_cons_s. cbn [String.length String.substring]. now rewrite IH.
Qed.

(** One or more digits in a group at the end of a pattern capture the whole
    run of digits. *)
Lemma run_group_digits (code tail : string) (caps : list string) :
  code <> "" -> all_chars is_digit code = true ->
  starts_with_digit tail = false ->
  run (Group (Plus Digit)) (code +:+ tail) caps
      (fun s' caps' => Some (caps', s'))
  = Some (caps ++ [code], tail).
Proof.
  intros Hne Hd Htail. destruct code as [|c code]; [congruence|].
  cbn [all_chars] in Hd. apply andb_prop in Hd as [Hc Hd].
  rewrite run_group. unfold Plus, Digit.
  rewrite run_seq, app_cons_s, run_class_cons, Hc.
  rewrite run_star_class_total by (intros; discriminate).
  rewrite drop_while_app, drop_while_digit_stop by assumption.
  rewrite <- app_cons_s, consumed_app. reflexivity.
Qed.

(** A line that starts with a channel error as gpg prints it: the pattern
    is found at the start, and its group is the code. *)
Lemma channel_error_line (n code tail : string) (to_agent : bool) :
  n <> "" -> all_chars is_digit n = true ->
  code <> "" -> all_chars is_digit code = true ->
  starts_with_digit tail = false ->
  re_search CHAN_ERROR_PAT
    ("gpg: DBG: chan_" +:+ n +:+ " " +:+ (if to_agent then "->" else "<-")
       +:+ " ERR " +:+ code +:+ tail)
  = Some ([code], tail).
Proof.
  intros Hn Hnd Hcode Hcd Htail.
  assert (Hmatch :
            re_match CHAN_ERROR_PAT
              ("gpg: DBG: chan_" +:+ n +:+ " " +:+ (if to_agent then "->" else "<-")
                 +:+ " ERR " +:+ code +:+ tail)
            = Some ([code], tail)).
  { unfold re_match, CHAN_ERROR_PAT.
    rewrite run_seq, run_lit, drop_prefix_same.
    destruct n as [|c n]; [congruence|].
    cbn [all_chars] in Hnd. apply andb_prop in Hnd as [Hc Hnd].
    unfold Plus at 1. unfold Digit at 1 2.
    rewrite !run_seq, app_cons_s, run_class_cons, Hc.
    apply run_star_class_max; [exact Hnd|].
    rewrite app_cons_s, run_star_class_cons. change (is_digit " ") with false.
    cbv iota. rewrite run_seq, run_char_cons, app_nil_l_s.
    change (Ascii.eqb " " " ") with true. cbv iota.
    rewrite run_seq, run_alt, !run_lit.
    destruct to_agent.
    - change (drop_prefix "<-" ("->" +:+ ?s)) with (@None string).
      rewrite drop_prefix_same, run_seq, run_lit, drop_prefix_same.
      now apply run_group_digits.
    - rewrite drop_prefix_same, run_seq, run_lit, drop_prefix_same.
      now rewrite run_group_digits. }
  destruct n; [congruence|].
  rewrite !app_cons_s in *. cbn [re_search]. now rewrite Hmatch.
Qed.

(** On such a line the classifier reads the code, masked to 16 bits. *)
Lemma channel_error_line_code (n code tail : string) (to_agent : bool) :
  n <> "" -> all_chars is_digit n = true ->
  code <> "" -> all_chars is_digit code = true ->
  starts_with_digit tail = false ->
  classify
    ("gpg: DBG: chan_" +:+ n +:+ " " +:+ (if to_agent then "->" else "<-")
       +:+ " ERR " +:+ code +:+ tail)
  = ChanError (Z.land (int code) 0xFFFF).
Proof.
  intros. unfold classify. now rewrite channel_error_line.
Qed.

Section RemoveFlag.

Variable flag : string.

(** A text without white space at the start of the result was at the
    start of the input, where the pattern did not match. *)
Lemma remove_flag_prefix (n : nat) : forall s q,
  String.length s <= n ->
  flag_delimited flag s = true ->
  q <> "" -> no_space q = true ->
  startswith q (remove_flag flag s) = true ->
  startswith q s = true /\ flag_match flag s = None.
Proof.
  induction n as [|n IH]; intros s q Hlen Hd Hq Hns Hpre.
  - destruct s; [|simpl in Hlen; lia].
    rewrite remove_flag_nil in Hpre. destruct q; [congruence|discriminate].
  - destruct s as [|c s].
    { rewrite remove_flag_nil in Hpre. destruct q; [congruence|discriminate]. }
    rewrite remove_flag_cons in Hpre.
    destruct (flag_match flag (String c s)) as [rest|] eqn:E.
    + exfalso.
      destruct (flag_match_Some _ _ _ E) as (c0 & m & Hs).
      assert (Hrest : String.length rest <= n).
      { apply (f_equal String.length) in Hs.
        rewrite length_app_s in Hs. cbn [String.length] in *. lia. }
      assert (Hdr : flag_delimited flag rest = true).
      { rewrite Hs in Hd. now apply flag_delimited_suffix in Hd. }
      destruct (IH rest q Hrest Hdr Hq Hns Hpre) as [Hst _].
      rewrite startswith_ws_start in Hst; [discriminate|assumption..|].
      now apply flag_match_ws_start with (flag := flag) (s := String c s).
    + split; [|reflexivity].
      destruct q as [|a q]; [congruence|].
      cbn [startswith] in *. apply andb_prop in Hpre as [Hac Hq'].
      rewrite Hac. cbn [andb].
      destruct q as [|a' q]; [reflexivity|].
      cbn [no_space all_chars] in Hns. apply andb_prop in Hns as [_ Hns].
      apply (IH s (String a' q)); try assumption.
      * cbn [String.length] in Hlen. lia.
      * now apply flag_delimited_tail in Hd.
      * discriminate.
Qed.

(** The result holds no occurrence of [q] when the pattern matches
    wherever [q] occurs in the input. *)
Lemma remove_flag_no_occurrence (q : string) (n : nat) : forall s,
  String.length s <= n ->
  flag_delimited flag s = true ->
  q <> "" -> no_space q = true ->
  (forall m t, s = m +:+ t -> startswith q t = true -> flag_match flag t <> None) ->
  occurrences q (remove_flag flag s) = 0.
Proof.
  induction n as [|n IH]; intros s Hlen Hd Hq Hns Hcov.
  - destruct s; [|simpl in Hlen; lia].
    rewrite remove_flag_nil. destruct q; [congruence|reflexivity].
  - destruct s as [|c s].
    { rewrite remove_flag_nil. destruct q; [congruence|reflexivity]. }
    pose proof (remove_flag_prefix (S n) (String c s) q Hlen Hd Hq Hns) as Hpre.
    rewrite remove_flag_cons in *.
    destruct (flag_match flag (String c s)) as [rest|] eqn:E.
    + destruct (flag_match_Some _ _ _ E) as (c0 & m & Hs).
      apply IH; try assumption.
      * apply (f_equal String.length) in Hs.
        rewrite length_app_s in Hs. cbn [String.length] in *. lia.
      * rewrite Hs in Hd. now apply flag_delimited_suffix in Hd.
      * intros m' t Ht. apply (Hcov (String c0 m +:+ m') t).
        now rewrite app_assoc_s, <- Ht.
    + cbn [occurrences].
      destruct (startswith q (String c (remove_flag flag s))) eqn:Est.
      * destruct (Hpre eq_refl) as [Hst _].
        exfalso. apply (Hcov "" (String c s) eq_refl Hst). exact E.
      * cbn [plus]. apply IH; try assumption.
        -- cbn [String.length] in Hlen. lia.
        -- now apply flag_delimited_tail in Hd.
        -- intros m t Ht. apply (Hcov (String c m) t).
           now rewrite app_cons_s, <- Ht.
Qed.

(** Removing [flag] keeps another flag delimited. *)
Lemma remove_flag_delimited (other : string) (n : nat) : forall s,
  String.length s <= n ->
  flag_delimited flag s = true ->
  flag_delimited other s = true ->
  no_space other = true ->
  flag_delimited other (remove_flag flag s) = true.
Proof.
  induction n as [|n IH]; intros s Hlen Hd Hod Hns.
  - destruct s; [reflexivity|simpl in Hlen; lia].
  - destruct s as [|c s]; [reflexivity|].
    pose proof (remove_flag_prefix (S n) (String c s)) as Hpre.
    rewrite remove_flag_cons in *.
    destruct (flag_match flag (String c s)) as [rest|] eqn:E.
    + destruct (flag_match_Some _ _ _ E) as (c0 & m & Hs).
      apply IH; try assumption.
      * apply (f_equal String.length) in Hs.
        rewrite length_app_s in Hs. cbn [String.length] in *. lia.
      * rewrite Hs in Hd. now apply flag_delimited_suffix in Hd.
      * rewrite Hs in Hod. now apply flag_delimited_suffix in Hod.
    + cbn [flag_delimited]. apply andb_true_intro. split.
      * destruct (drop_prefix ("--" +:+ other) (String c (remove_flag flag s)))
          as [r|] eqn:Er; [|reflexivity].
        apply drop_prefix_Some in Er.
        destruct r as [|x r]; [reflexivity|]. cbn [starts_delimited].
        destruct (is_space x) eqn:Ex; [apply orb_true_r|].
        rewrite orb_false_r.
        assert (Hq : startswith (("--" +:+ other) +:+ String x "") (String c s) = true).
        { apply Hpre; try assumption.
          - destruct other; discriminate.
          - unfold no_space in *. clear - Hns Ex.
            change ("--" +:+ other) with (String "-" (String "-" other)).
            rewrite !app_cons_s. cbn [all_chars]. cbn [andb negb is_space].
            change (is_space "-") with false. cbn [negb andb].
            induction other as [|a o IHo].
            + cbn [String.append all_chars]. rewrite app_nil_l_s.
              cbn [all_chars]. now rewrite Ex.
            + rewrite app_cons_s. cbn [all_chars] in *.
              apply andb_prop in Hns as [-> Hns]. now apply IHo.
          - rewrite Er. rewrite <- (app_nil_l_s r) at 1.
            rewrite <- app_cons_s, <- app_assoc_s. apply startswith_same. }
        apply startswith_inv in Hq as [t Ht].
        rewrite app_assoc_s, (app_cons_s x "" t), app_nil_l_s in Ht.
        pose proof (flag_delimited_head other (String c s) (String x t) Hod) as Hh.
        rewrite Ht, drop_prefix_same in Hh. specialize (Hh eq_refl).
        cbn [starts_delimited] in Hh. now rewrite Ex, orb_false_r in Hh.
      * apply IH; try assumption.
        -- cbn [String.length] in Hlen. lia.
        -- now apply flag_delimited_tail in Hd.
        -- now apply flag_delimited_tail in Hod.
Qed.

End RemoveFlag.

(** ** White space at the end *)

Lemma rstrip_cons_not_space (c : ascii) (s : string) :
  is_space c = false -> rstrip (String c s) = String c (rstrip s).
Proof. intros H. cbn [rstrip]. rewrite H. now destruct (rstrip s). Qed.

Lemma rstrip_app_not_space (a : string) (c : ascii) (t : string) :
  is_space c = false -> rstrip (a +:+ String c t) = a +:+ String c (rstrip t).
Proof.
  intros H. induction a as [|x a IH].
  - rewrite !app_nil_l_s. now apply rstrip_cons_not_space.
  - rewrite !app_cons_s. cbn [rstrip]. rewrite IH.
    destruct a; reflexivity.
Qed.

Lemma startswith_rstrip (t : string) : forall q,
  no_space q = true -> startswith q (rstrip t) = startswith q t.
Proof.
  induction t as [|c t IH]; intros q Hq; [reflexivity|].
  destruct q as [|a q]; [reflexivity|].
  cbn [no_space all_chars] in Hq. apply andb_prop in Hq as [Ha Hq].
  specialize (IH q Hq). cbn [rstrip startswith].
  destruct (rstrip t) as [|y r] eqn:E.
  - destruct (is_space c) eqn:Ec.
    + destruct (Ascii.eqb_spec a c) as [->|]; [|reflexivity].
      rewrite Ec in Ha. discriminate.
    + cbn [startswith]. now rewrite IH.
  - cbn [startswith]. now rewrite IH.
Qed.

Lemma occurrences_nil (q : string) : q <> "" -> occurrences q "" = 0.
Proof. destruct q; [congruence|reflexivity]. Qed.

Lemma occurrences_rstrip (q t : string) :
  q <> "" -> no_space q = true -> occurrences q (rstrip t) = occurrences q t.
Proof.
  intros Hq Hns. induction t as [|c t IH]; [reflexivity|].
  pose proof (startswith_rstrip (String c t) q Hns) as Hst.
  destruct q as [|a q]; [congruence|].
  cbn [occurrences]. rewrite <- Hst, <- IH. cbn [rstrip].
  destruct (rstrip t) as [|y r] eqn:E; [|reflexivity].
  destruct (is_space c); reflexivity.
Qed.

Lemma occurrences_zero_suffix (q m t : string) :
  occurrences q (m +:+ t) = 0 -> startswith q t = false.
Proof.
  induction m as [|a m IH].
  - rewrite app_nil_l_s. destruct t; cbn [occurrences];
      destruct (startswith q _); [discriminate|reflexivity|discriminate|reflexivity].
  - rewrite app_cons_s. cbn [occurrences]. intros H. apply IH. lia.
Qed.

(** ** [setFlags] with the flags of the program *)

Lemma setFlags_body_status (opts : string) :
  setFlags_body opts ("status-fd", "2")
  = "--status-fd=2 " +:+ remove_flag "status-fd" opts.
Proof. reflexivity. Qed.

Lemma setFlags_body_debug (opts : string) :
  setFlags_body opts ("debug", "ipc") = "--debug=ipc " +:+ remove_flag "debug" opts.
Proof. reflexivity. Qed.

Lemma remove_flag_cons_nomatch (flag : string) (c : ascii) (s : string) :
  flag_match flag (String c s) = None ->
  remove_flag flag (String c s) = String c (remove_flag flag s).
Proof. intros H. now rewrite remove_flag_cons, H. Qed.

(** The status flag put in front is no match for the debug pattern. *)
Lemma remove_debug_after_status (s : string) :
  remove_flag "debug" ("--status-fd=2 " +:+ s)
  = "--status-fd=2 " +:+ remove_flag "debug" s.
Proof.
  change ("--status-fd=2 " +:+ s)
    with (String "-" (String "-" (String "s" (String "t" (String "a"
           (String "t" (String "u" (String "s" (String "-" (String "f"
           (String "d" (String "=" (String "2" (String " " s)))))))))))))).
  repeat (rewrite remove_flag_cons_nomatch by reflexivity).
  reflexivity.
Qed.

Lemma setFlags_required (env : gmap string string) :
  setFlags env REQUIRED_FLAGS =
  <[GPG_OPTS :=
      strip ("--debug=ipc --status-fd=2 "
               +:+ remove_flag "debug"
                     (remove_flag "status-fd" (default "" (env !! GPG_OPTS))))]> env.
Proof.
  unfold setFlags, REQUIRED_FLAGS. cbn [fold_left].
  rewrite setFlags_body_status, setFlags_body_debug, remove_debug_after_status.
  reflexivity.
Qed.

Lemma strip_composed (s : string) :
  strip ("--debug=ipc --status-fd=2 " +:+ s)
  = "--debug=ipc --status-fd=2" +:+ rstrip (String " " s).
Proof.
  unfold strip.
  change (lstrip ("--debug=ipc --status-fd=2 " +:+ s))
    with ("--debug=ipc --status-fd=" +:+ String "2" (String " " s)).
  now rewrite rstrip_app_not_space by reflexivity.
Qed.



(** C3, as the code has it: when every occurrence of [--status-fd] and of
    [--debug] in the initial option string is followed by the end of the
    string, an equals sign or white space, the composed option string
    starts with the two injected flags and holds each of the two flags
    exactly once. *)
Theorem injected_flags_occur_once (env : gmap string string) (opts : string) :
  default "" (env !! GPG_OPTS) = opts ->
  flag_delimited "status-fd" opts = true ->
  flag_delimited "debug" opts = true ->
  exists final,
    setFlags env REQUIRED_FLAGS !! GPG_OPTS = Some final
    /\ startswith "--debug=ipc --status-fd=2" final = true
    /\ occurrences "--status-fd" final = 1
    /\ occurrences "--debug" final = 1.
Proof.
  intros Hopts Hs Hd.
  set (x := remove_flag "status-fd" opts).
  set (y := remove_flag "debug" x).
  assert (Hxs : occurrences "--status-fd" x = 0).
  { apply (remove_flag_no_occurrence "status-fd" "--status-fd" (String.length opts));
      try reflexivity; try assumption; [discriminate|].
    intros m t _ Hst. unfold flag_match.
    rewrite startswith_drop_prefix in Hst.
    change ("--" +:+ "status-fd") with "--status-fd".
    destruct (drop_prefix "--status-fd" t); [discriminate|discriminate]. }
  assert (Hxd : flag_delimited "debug" x = true).
  { apply (remove_flag_delimited "status-fd" "debug" (String.length opts));
      try reflexivity; assumption. }
  assert (Hxs' : flag_delimited "status-fd" x = true).
  { clear - Hxs. induction x as [|c x IH]; cbn [flag_delimited occurrences] in *.
    - reflexivity.
    - change ("--" +:+ "status-fd") with "--status-fd".
      rewrite startswith_drop_prefix in Hxs.
      destruct (drop_prefix "--status-fd" (String c x)); [discriminate|].
      apply IH. exact Hxs. }
  assert (Hyd : occurrences "--debug" y = 0).
  { apply (remove_flag_no_occurrence "debug" "--debug" (String.length x));
      try reflexivity; try assumption; [discriminate|].
    intros m t _ Hst. unfold flag_match.
    rewrite startswith_drop_prefix in Hst.
    change ("--" +:+ "debug") with "--debug".
    destruct (drop_prefix "--debug" t); [discriminate|discriminate]. }
  assert (Hys : occurrences "--status-fd" y = 0).
  { apply (remove_flag_no_occurrence "debug" "--status-fd" (String.length x));
      try reflexivity; try assumption; [discriminate|].
    intros m t Hx Hst. exfalso.
    rewrite Hx in Hxs. apply occurrences_zero_suffix in Hxs. congruence. }
  exists ("--debug=ipc --status-fd=2" +:+ rstrip (String " " y)).
  split; [|split; [|split]].
  - rewrite setFlags_required, lookup_insert_eq, Hopts. fold x y.
    now rewrite strip_composed.
  - apply startswith_same.
  - change (occurrences "--status-fd"
              ("--debug=ipc --status-fd=2" +:+ rstrip (String " " y)))
      with (S (occurrences "--status-fd" (rstrip (String " " y)))).
    rewrite occurrences_rstrip by (reflexivity || discriminate).
    change (occurrences "--status-fd" (String " " y))
      with (occurrences "--status-fd" y).
    now rewrite Hys.
  - change (occurrences "--debug"
              ("--debug=ipc --status-fd=2" +:+ rstrip (String " " y)))
      with (S (occurrences "--debug" (rstrip (String " " y)))).
    rewrite occurrences_rstrip by (reflexivity || discriminate).
    change (occurrences "--debug" (String " " y)) with (occurrences "--debug" y).
    now rewrite Hyd.
Qed.

Lemma injected_flags_occur_once_witness :
  exists final,
    setFlags {[ GPG_OPTS := "--status-fd 1 --batch --debug=all --debug" ]}
             REQUIRED_FLAGS !! GPG_OPTS = Some final
    /\ startswith "--debug=ipc --status-fd=2" final = true
    /\ occurrences "--status-fd" final = 1
    /\ occurrences "--debug" final = 1.
Proof.
  apply (injected_flags_occur_once
           {[ GPG_OPTS := "--status-fd 1 --batch --debug=all --debug" ]}
           "--status-fd 1 --batch --debug=all --debug").
  - now rewrite lookup_singleton_eq.
  - reflexivity.
  - reflexivity.
Defined.

(** C3 as stated fails: removing a flag name that stands between the halves
    of that name puts the halves together.  The option string below holds
    the debug flag with a value, and the composed string holds the flag
    twice. *)
Lemma flag_reassembled :
  occurrences "--debug" "----debugdebug --debug=1" = 2
  /\ setFlags {[ GPG_OPTS := "----debugdebug --debug=1" ]} REQUIRED_FLAGS !! GPG_OPTS
     = Some "--debug=ipc --status-fd=2 --debug"
  /\ occurrences "--debug" "--debug=ipc --status-fd=2 --debug" = 2.
Proof.
  repeat split; reflexivity.
Qed.

(** ** End of input *)

(** C9: when standard input is at its end, the read of the length prefix
    returns no byte, [getMessage] exits with status 0, and the process ends
    with that status without writing anything. *)
Theorem end_of_input_exits
        (big_endian : bool)
        (subprocess_run :
           list string -> option (list Byte.byte) -> gmap string string -> result completed)
        (home : string) (environ : gmap string string) :
  getMessage big_endian [] = Exit 0
  /\ main big_endian subprocess_run home [] environ = ([], Exit 0).
Proof. split; reflexivity. Qed.

(** A prefix cut short is no clean end: one to three bytes make
    [struct.unpack] raise. *)
Lemma short_prefix_raises (big_endian : bool) (stdin : list Byte.byte) :
  0 < List.length stdin < 4 -> getMessage big_endian stdin = Raise StructError.
Proof.
  intros H. destruct stdin as [|b0 [|b1 [|b2 [|b3 stdin]]]];
    cbn [List.length] in H; try lia; destruct big_endian; reflexivity.
Qed.

(** ** JSON text *)

Ltac each_char c :=
  destruct c as [[] [] [] [] [] [] [] []].

Lemma scanstring_escape_char (c : ascii) (tail : string) :
  scanstring (escape_char c +:+ tail) =
  (let* (r, rest) := scanstring tail in Ok (String c r, rest)).
Proof. each_char c; reflexivity. Qed.

Lemma scanstring_escape (s rest : string) :
  scanstring (escape s +:+ String DQUOTE rest) = Ok (s, rest).
Proof.
  induction s as [|c s IH].
  - reflexivity.
  - cbn [escape]. rewrite app_assoc_s, scanstring_escape_char, IH. reflexivity.
Qed.

Lemma all_chars_app (p : ascii -> bool) (a b : string) :
  all_chars p (a +:+ b) = all_chars p a && all_chars p b.
Proof.
  induction a as [|x a IH]; [reflexivity|].
  rewrite app_cons_s. cbn [all_chars]. now rewrite IH, andb_assoc.
Qed.

Lemma escape_char_ascii (c : ascii) : all_chars is_ascii (escape_char c) = true.
Proof. each_char c; reflexivity. Qed.

Lemma escape_ascii (s : string) : all_chars is_ascii (escape s) = true.
Proof.
  induction s as [|c s IH]; [reflexivity|].
  cbn [escape]. now rewrite all_chars_app, escape_char_ascii, IH.
Qed.

Lemma escape_char_length (c : ascii) : 1 <= String.length (escape_char c).
Proof. each_char c; vm_compute; lia. Qed.

Lemma escape_length (s : string) : String.length s <= String.length (escape s).
Proof.
  induction s as [|c s IH]; [reflexivity|].
  cbn [escape String.length]. rewrite length_app_s.
  pose proof (escape_char_length c). lia.
Qed.

(** *** Decimal numbers *)

Lemma digit_char_spec (k : Z) :
  (0 <= k <= 9)%Z ->
  is_digit (digit_char k) = true /\ digit_value (digit_char k) = k
  /\ is_ascii (digit_char k) = true
  /\ (k <> 0%Z -> Ascii.eqb (digit_char k) "0" = false).
Proof.
  intros H.
  assert (Hk : (k = 0 \/ k = 1 \/ k = 2 \/ k = 3 \/ k = 4 \/ k = 5 \/ k = 6
                \/ k = 7 \/ k = 8 \/ k = 9)%Z) by lia.
  repeat (destruct Hk as [-> | Hk]); try subst k;
    repeat split; try reflexivity; intros; congruence.
Qed.

Lemma int_acc_app (a : Z) (d1 d2 : string) :
  int_acc a (d1 +:+ d2) = int_acc (int_acc a d1) d2.
Proof.
  revert a. induction d1 as [|c d1 IH]; intros a; [reflexivity|].
  rewrite app_cons_s. cbn [int_acc]. apply IH.
Qed.

(** The digits [digits_acc] puts in front of [acc]. *)
Lemma digits_acc_spec (fuel : nat) : forall n acc,
  (0 <= n < 2 ^ Z.of_nat fuel)%Z -> fuel <> 0 ->
  exists c d,
    digits_acc fuel n acc = String c (d +:+ acc)
    /\ is_digit c = true /\ all_chars is_digit d = true
    /\ int (String c d) = n
    /\ (n <> 0%Z -> Ascii.eqb c "0" = false)
    /\ (n = 0%Z -> c = "0"%char /\ d = "").
Proof.
  induction fuel as [|fuel IH]; intros n acc Hn Hfuel; [congruence|].
  cbn [digits_acc]. destruct (Z.ltb_spec n 10) as [Hlt|Hge].
  - exists (digit_char (n mod 10)), "".
    rewrite Z.mod_small by lia.
    destruct (digit_char_spec n) as (Hd & Hv & _ & Hz); [lia|].
    split; [reflexivity|]. split; [exact Hd|]. split; [reflexivity|].
    split; [unfold int; cbn [int_acc]; rewrite Hv; lia|].
    split; [exact Hz|]. intros ->. split; reflexivity.
  - assert (Hfuel' : fuel <> 0).
    { intros ->. change (2 ^ Z.of_nat 1)%Z with 2%Z in Hn. lia. }
    assert (Hq : (0 <= n / 10 < 2 ^ Z.of_nat fuel)%Z).
    { split; [apply Z.div_pos; lia|].
      apply Z.div_lt_upper_bound; [lia|].
      rewrite Nat2Z.inj_succ, Z.pow_succ_r in Hn by lia. lia. }
    destruct (IH (n / 10)%Z (String (digit_char (n mod 10)) acc) Hq Hfuel')
      as (c & d & Heq & Hc & Hd & Hint & Hnz & _).
    exists c, (d +:+ String (digit_char (n mod 10)) "").
    destruct (digit_char_spec (n mod 10)) as (Hd0 & Hv0 & _).
    { pose proof (Z.mod_pos_bound n 10). lia. }
    split; [rewrite Heq, app_assoc_s; reflexivity|].
    split; [exact Hc|].
    split; [rewrite all_chars_app, Hd; cbn [all_chars]; now rewrite Hd0|].
    split.
    { unfold int in *. rewrite <- app_cons_s, int_acc_app, Hint.
      cbn [int_acc]. rewrite Hv0.
      pose proof (Z.div_mod n 10). lia. }
    split; [|lia].
    intros _. apply Hnz. intros H0.
    pose proof (Z.div_mod n 10). pose proof (Z.mod_pos_bound n 10). lia.
Qed.

(** The decimal text of a natural number. *)
Lemma repr_nat_spec (n : Z) :
  (0 <= n)%Z ->
  exists c d,
    digits_acc (S (Z.to_nat (Z.log2 n))) n "" = String c d
    /\ is_digit c = true /\ all_chars is_digit d = true
    /\ int (String c d) = n
    /\ (n <> 0%Z -> Ascii.eqb c "0" = false)
    /\ (n = 0%Z -> c = "0"%char /\ d = "").
Proof.
  intros Hn.
  destruct (digits_acc_spec (S (Z.to_nat (Z.log2 n))) n "") as (c & d & H);
    [|discriminate|].
  - split; [assumption|].
    rewrite Nat2Z.inj_succ, Z2Nat.id by apply Z.log2_nonneg.
    destruct (Z.eq_dec n 0%Z) as [->|Hnz]; [reflexivity|].
    apply Z.log2_spec. lia.
  - exists c, d. now rewrite app_nil_r_s in H.
Qed.

Lemma span_digits_app (d rest : string) :
  all_chars is_digit d = true -> starts_with_digit rest = false ->
  span_digits (d +:+ rest) = (d, rest).
Proof.
  intros Hd Hrest. induction d as [|c d IH].
  - rewrite app_nil_l_s. destruct rest as [|x rest]; [reflexivity|].
    cbn [span_digits starts_with_digit] in *. now rewrite Hrest.
  - cbn [all_chars] in Hd. apply andb_prop in Hd as [Hc Hd].
    rewrite app_cons_s. cbn [span_digits]. now rewrite Hc, IH.
Qed.

Lemma scan_natural_digits (c : ascii) (d rest : string) (n : Z) :
  is_digit c = true -> all_chars is_digit d = true ->
  int (String c d) = n ->
  (n <> 0%Z -> Ascii.eqb c "0" = false) ->
  (n = 0%Z -> c = "0"%char /\ d = "") ->
  starts_with_digit rest = false ->
  scan_natural (String c (d +:+ rest)) = Ok (n, rest).
Proof.
  intros Hc Hd Hint Hnz Hz Hrest. unfold scan_natural.
  destruct (Ascii.eqb c "0") eqn:E.
  - destruct (Z.eq_dec n 0%Z) as [H0|H0].
    + destruct (Hz H0) as [_ ->]. now rewrite H0, app_nil_l_s.
    + specialize (Hnz H0). discriminate Hnz.
  - rewrite Hc, <- app_cons_s, span_digits_app; [now rewrite Hint| |assumption].
    cbn [all_chars]. now rewrite Hc, Hd.
Qed.

Lemma scan_once_digit (fuel : nat) (c : ascii) (s : string) :
  is_digit c = true ->
  scan_once (S fuel) (String c s) =
  (let* (n, rest) := scan_natural (String c s) in
   if float_tail rest then Raise Unmodelled else Ok (JInt n, rest)).
Proof. each_char c; intros H; vm_compute in H; try discriminate H; reflexivity. Qed.

Lemma scan_once_minus (fuel : nat) (c : ascii) (s : string) :
  is_digit c = true ->
  scan_once (S fuel) (String "-" (String c s)) =
  (let* (n, rest) := (let* (m, r) := scan_natural (String c s) in Ok ((- m)%Z, r)) in
   if float_tail rest then Raise Unmodelled else Ok (JInt n, rest)).
Proof. each_char c; intros H; vm_compute in H; try discriminate H; reflexivity. Qed.

Lemma skip_ws_digit (c : ascii) (s : string) :
  is_digit c = true -> skip_ws (String c s) = String c s.
Proof. each_char c; intros H; vm_compute in H; try discriminate H; reflexivity. Qed.

(** The text of an integer in front of a comma is read back as that
    integer. *)
Lemma scan_once_repr_int (fuel : nat) (n : Z) (rest : string) :
  skip_ws (repr_int n +:+ String "," rest) = repr_int n +:+ String "," rest
  /\ scan_once (S fuel) (repr_int n +:+ String "," rest)
     = Ok (JInt n, String "," rest).
Proof.
  unfold repr_int. cbv zeta. destruct (Z.ltb_spec n 0) as [Hneg|Hpos].
  - destruct (repr_nat_spec (- n)%Z) as (c & d & -> & Hc & Hd & Hint & Hnz & Hz);
      [lia|].
    rewrite !app_cons_s. split; [reflexivity|].
    rewrite scan_once_minus by assumption.
    rewrite (scan_natural_digits c d (String "," rest) (- n)%Z)
      by (assumption || reflexivity).
    cbn [bind]. rewrite Z.opp_involutive. reflexivity.
  - destruct (repr_nat_spec n) as (c & d & -> & Hc & Hd & Hint & Hnz & Hz);
      [lia|].
    rewrite !app_cons_s. split; [now apply skip_ws_digit|].
    rewrite scan_once_digit by assumption.
    rewrite (scan_natural_digits c d (String "," rest) n)
      by (assumption || reflexivity).
    reflexivity.
Qed.

Lemma repr_int_ascii (n : Z) : all_chars is_ascii (repr_int n) = true.
Proof.
  assert (Hdigit : forall s, all_chars is_digit s = true -> all_chars is_ascii s = true).
  { induction s as [|c s IH]; [reflexivity|]. cbn [all_chars].
    intros H. apply andb_prop in H as [Hc Hs]. rewrite (IH Hs), andb_true_r.
    revert Hc. each_char c; intros H; vm_compute in H; try discriminate H; reflexivity. }
  unfold repr_int. cbv zeta. destruct (Z.ltb_spec n 0) as [Hneg|Hpos].
  - destruct (repr_nat_spec (- n)%Z) as (c & d & -> & Hc & Hd & _); [lia|].
    cbn [all_chars]. change (is_ascii "-") with true. cbn [andb].
    apply (Hdigit (String c d)). cbn [all_chars]. now rewrite Hc, Hd.
  - destruct (repr_nat_spec n) as (c & d & -> & Hc & Hd & _); [lia|].
    apply (Hdigit (String c d)). cbn [all_chars]. now rewrite Hc, Hd.
Qed.

(** *** The members of an object *)

Lemma parse_member_int (fuel : nat) (key : string) (n : Z) (next : string)
      (acc : list (string * json)) :
  parse_members (S (S fuel)) (member_int key n (String "," (String " " next))) acc
  = parse_members (S fuel) (skip_ws next) (dict_set acc key (JInt n)).
Proof.
  unfold member_int. cbn [parse_members].
  change (Ascii.eqb DQUOTE DQUOTE) with true. cbv iota.
  rewrite scanstring_escape. cbn [bind].
  change (skip_ws (String ":" ?x)) with (String ":" x).
  cbv iota beta.
  change (skip_ws (String " " (repr_int n +:+ String "," (String " " next))))
    with (skip_ws (repr_int n +:+ String "," (String " " next))).
  destruct (scan_once_repr_int fuel n (String " " next)) as [-> ->].
  reflexivity.
Qed.

Lemma parse_member_str (fuel : nat) (key value next : string)
      (acc : list (string * json)) :
  parse_members (S (S fuel)) (member_str key value (String "," (String " " next))) acc
  = parse_members (S fuel) (skip_ws next) (dict_set acc key (JStr value)).
Proof.
  unfold member_str. cbn [parse_members].
  change (Ascii.eqb DQUOTE DQUOTE) with true. cbv iota.
  rewrite scanstring_escape. cbn [bind].
  change (skip_ws (String ":" ?x)) with (String ":" x).
  cbv iota beta.
  change (skip_ws (String " " (String DQUOTE ?x))) with (String DQUOTE x).
  cbn [scan_once].
  change (Ascii.eqb DQUOTE DQUOTE) with true. cbv iota.
  rewrite scanstring_escape. reflexivity.
Qed.

Lemma parse_member_str_last (fuel : nat) (key value rest : string)
      (acc : list (string * json)) :
  parse_members (S (S fuel)) (member_str key value (String "}" rest)) acc
  = Ok (JObj (dict_set acc key (JStr value)), rest).
Proof.
  unfold member_str. cbn [parse_members].
  change (Ascii.eqb DQUOTE DQUOTE) with true. cbv iota.
  rewrite scanstring_escape. cbn [bind].
  change (skip_ws (String ":" ?x)) with (String ":" x).
  cbv iota beta.
  change (skip_ws (String " " (String DQUOTE ?x))) with (String DQUOTE x).
  cbn [scan_once].
  change (Ascii.eqb DQUOTE DQUOTE) with true. cbv iota.
  rewrite scanstring_escape. reflexivity.
Qed.

(** *** The text of a response *)

Lemma dumps_response (r : Response) : dumps (response_json r) = response_text r.
Proof.
  unfold response_json, response_text, member_int, member_str.
  cbn [dumps List.map join fst snd]. unfold dumps_str.
  repeat progress rewrite ?app_cons_s, ?app_assoc_s, ?app_nil_l_s.
  reflexivity.
Qed.

Lemma loads_response (r : Response) : loads (response_text r) = Ok (response_json r).
Proof.
  unfold loads.
  assert (Hlen : exists fuel,
             String.length (response_text r) = S (S (S (S (S (S (S fuel))))))).
  { unfold response_text, member_int. cbn [String.length].
    change (escape "exitCode") with "exitCode". rewrite !app_cons_s.
    cbn [String.length]. eauto. }
  destruct Hlen as [fuel ->].
  unfold response_text.
  change (skip_ws (String "{" ?x)) with (String "{" x).
  change (scan_once (S (S (S (S (S (S (S (S fuel))))))))
            (String "{" (member_int "exitCode" (exitCode r) ?x)))
    with (parse_members (S (S (S (S (S (S (S fuel)))))))
            (member_int "exitCode" (exitCode r) x) []).
  rewrite parse_member_int.
  change (skip_ws (member_str ?k ?v ?x)) with (member_str k v x).
  rewrite parse_member_str.
  change (skip_ws (member_str ?k ?v ?x)) with (member_str k v x).
  rewrite parse_member_str.
  change (skip_ws (member_int ?k ?v ?x)) with (member_int k v x).
  rewrite parse_member_int.
  change (skip_ws (member_str ?k ?v ?x)) with (member_str k v x).
  rewrite parse_member_str_last.
  reflexivity.
Qed.

Lemma member_int_ascii (key : string) (n : Z) (rest : string) :
  all_chars is_ascii rest = true -> all_chars is_ascii (member_int key n rest) = true.
Proof.
  intros H. unfold member_int. cbn [all_chars].
  rewrite all_chars_app, escape_ascii. cbn [all_chars].
  rewrite all_chars_app, repr_int_ascii, H. reflexivity.
Qed.

Lemma member_str_ascii (key value rest : string) :
  all_chars is_ascii rest = true ->
  all_chars is_ascii (member_str key value rest) = true.
Proof.
  intros H. unfold member_str. cbn [all_chars].
  rewrite all_chars_app, escape_ascii. cbn [all_chars].
  rewrite all_chars_app, escape_ascii. cbn [all_chars]. rewrite H. reflexivity.
Qed.

Lemma response_text_ascii (r : Response) :
  all_chars is_ascii (response_text r) = true.
Proof.
  unfold response_text. cbn [all_chars]. change (is_ascii "{") with true.
  cbn [andb].
  repeat first [ apply member_int_ascii | apply member_str_ascii
               | (cbn [all_chars]; change (is_ascii ",") with true;
                  change (is_ascii " ") with true; cbn [andb]) ].
  reflexivity.
Qed.

Lemma response_text_length (r : Response) :
  String.length (stdout r) <= String.length (response_text r).
Proof.
  unfold response_text, member_int, member_str.
  repeat (cbn [String.length]; rewrite ?length_app_s).
  pose proof (escape_length (stdout r)). lia.
Qed.

(** ** Bytes *)

Lemma utf8_decode_encode_char (c : ascii) (s : string) :
  exists prefix,
    utf8_encode (String c s) = prefix ++ utf8_encode s
    /\ (is_ascii c = true -> List.length prefix = 1)
    /\ forall b,
         utf8_decode (prefix ++ b) = (let* r := utf8_decode b in Ok (String c r)).
Proof.
  each_char c;
    (eexists [_]; split; [reflexivity|split; [reflexivity|intros b; reflexivity]])
    || (eexists [_; _]; split; [reflexivity|split; [discriminate|intros b; reflexivity]]).
Qed.

Lemma utf8_decode_encode (s : string) : utf8_decode (utf8_encode s) = Ok s.
Proof.
  induction s as [|c s IH]; [reflexivity|].
  destruct (utf8_decode_encode_char c s) as (prefix & -> & _ & ->).
  now rewrite IH.
Qed.

Lemma utf8_encode_ascii_length (s : string) :
  all_chars is_ascii s = true -> List.length (utf8_encode s) = String.length s.
Proof.
  induction s as [|c s IH]; [reflexivity|]. cbn [all_chars].
  intros H. apply andb_prop in H as [Hc Hs].
  destruct (utf8_decode_encode_char c s) as (prefix & -> & Hlen & _).
  rewrite length_app, (Hlen Hc), (IH Hs). reflexivity.
Qed.

Lemma Z_of_byte_of_Z (x : Z) : Z_of_byte (byte_of_Z x) = (x mod 256)%Z.
Proof.
  pose proof (Z.mod_pos_bound x 256 eq_refl) as Hb.
  unfold Z_of_byte, byte_of_Z.
  destruct (Byte.of_N (Z.to_N (x mod 256))) as [b|] eqn:E.
  - apply Byte.to_of_N in E. rewrite E. apply Z2N.id. lia.
  - apply Byte.of_N_None_iff in E. lia.
Qed.

Lemma byte_bits (n k i : Z) :
  (0 <= k)%Z -> (0 <= i)%Z ->
  Z.testbit (Z.shiftl (Z.shiftr n k mod 2 ^ 8) k) i
  = ((k <=? i)%Z && (i <? k + 8)%Z && Z.testbit n i).
Proof.
  intros Hk Hi. rewrite Z.shiftl_spec by lia.
  destruct (Z.leb_spec k i) as [Hle|Hlt].
  - rewrite Z.testbit_mod_pow2 by lia. rewrite Z.shiftr_spec by lia.
    replace (i - k + k)%Z with i by lia. cbn [andb].
    destruct (Z.ltb_spec (i - k) 8), (Z.ltb_spec i (k + 8)); try lia; reflexivity.
  - cbn [andb]. apply Z.testbit_neg_r. lia.
Qed.

(** The four bytes of a length make up the length again. *)
Lemma unpack_pack (big_endian : bool) (n : Z) :
  (0 <= n < 2 ^ 32)%Z ->
  exists b0 b1 b2 b3,
    pack_I big_endian n = Ok [b0; b1; b2; b3]
    /\ unpack_I big_endian [b0; b1; b2; b3] = Ok n.
Proof.
  intros Hn. unfold pack_I.
  replace ((0 <=? n)%Z && (n <? 2 ^ 32)%Z) with true
    by (symmetry; apply andb_true_intro; split;
        [apply Z.leb_le|apply Z.ltb_lt]; lia).
  assert (Hbits :
            Z.lor (Z_of_byte (byte_of_Z n))
              (Z.lor (Z.shiftl (Z_of_byte (byte_of_Z (Z.shiftr n 8))) 8)
                 (Z.lor (Z.shiftl (Z_of_byte (byte_of_Z (Z.shiftr n 16))) 16)
                    (Z.shiftl (Z_of_byte (byte_of_Z (Z.shiftr n 24))) 24))) = n).
  { rewrite !Z_of_byte_of_Z. change 256%Z with (2 ^ 8)%Z.
    rewrite <- (Z.shiftr_0_r n) at 1. rewrite <- (Z.shiftl_0_r (_ mod _)) at 1.
    apply Z.bits_inj'. intros i Hi.
    rewrite !Z.lor_spec, !byte_bits by lia.
    assert (Hhigh : (32 <= i)%Z -> Z.testbit n i = false).
    { intros H32. rewrite <- (Z.mod_small n (2 ^ 32)) by lia.
      rewrite Z.testbit_mod_pow2 by lia.
      destruct (Z.ltb_spec i 32); [lia|reflexivity]. }
    destruct (Z.leb_spec 0 i), (Z.ltb_spec i (0 + 8)),
      (Z.leb_spec 8 i), (Z.ltb_spec i (8 + 8)),
      (Z.leb_spec 16 i), (Z.ltb_spec i (16 + 8)),
      (Z.leb_spec 24 i), (Z.ltb_spec i (24 + 8)); try lia;
      cbn [andb orb]; rewrite ?orb_false_r; try reflexivity.
    symmetry. apply Hhigh. lia. }
  destruct big_endian.
  - exists (byte_of_Z (Z.shiftr n 24)), (byte_of_Z (Z.shiftr n 16)),
      (byte_of_Z (Z.shiftr n 8)), (byte_of_Z n).
    split; [reflexivity|]. unfold unpack_I. cbn [rev app]. now rewrite Hbits.
  - exists (byte_of_Z n), (byte_of_Z (Z.shiftr n 8)),
      (byte_of_Z (Z.shiftr n 16)), (byte_of_Z (Z.shiftr n 24)).
    split; [reflexivity|]. unfold unpack_I. now rewrite Hbits.
Qed.

(** ** The framing codec *)

(** C8, as the code has it: a response whose JSON text has fewer than
    2^32 characters is encoded, and reading the bytes that [sendMessage]
    writes for it returns the dict of the response. *)
Theorem response_round_trip (big_endian : bool) (r : Response) :
  (Z.of_nat (String.length (dumps (response_json r))) < 2 ^ 32)%Z ->
  exists message,
    encodeMessage big_endian (response_json r) = Ok message
    /\ getMessage big_endian (sendMessage message []) = Ok (response_json r).
Proof.
  intros Hlen. unfold encodeMessage. rewrite dumps_response in *.
  destruct (unpack_pack big_endian (Z.of_nat (String.length (response_text r))))
    as (b0 & b1 & b2 & b3 & Hpack & Hunpack); [lia|].
  rewrite Hpack. cbn [bind]. eexists. split; [reflexivity|].
  unfold getMessage, sendMessage. cbn [enc_length enc_content app firstn skipn].
  cbn [List.length Nat.eqb]. rewrite firstn_O, skipn_O, Hunpack. cbn [bind].
  rewrite Nat2Z.id, firstn_all2
    by (rewrite utf8_encode_ascii_length by apply response_text_ascii; lia).
  rewrite utf8_decode_encode. cbn [bind]. apply loads_response.
Qed.

Lemma response_round_trip_witness :
  exists message,
    encodeMessage false
      (response_json {| exitCode := 1; stdout := "pw: " +:+ String DQUOTE "x";
                        stderr := "gpg: decryption failed"; errorCode := 17;
                        version := VERSION |}) = Ok message
    /\ getMessage false (sendMessage message [])
       = Ok (response_json {| exitCode := 1; stdout := "pw: " +:+ String DQUOTE "x";
                              stderr := "gpg: decryption failed"; errorCode := 17;
                              version := VERSION |}).
Proof.
  apply (response_round_trip false
           {| exitCode := 1; stdout := "pw: " +:+ String DQUOTE "x";
              stderr := "gpg: decryption failed"; errorCode := 17;
              version := VERSION |}).
  vm_compute. reflexivity.
Defined.

Lemma iter_string_length (c : ascii) (s : string) (n : N) :
  N.of_nat (String.length (N.iter n (String c) s)) = (n + N.of_nat (String.length s))%N.
Proof.
  induction n as [|n IH] using N.peano_ind; [reflexivity|].
  rewrite N.iter_succ. cbn [String.length]. rewrite Nat2N.inj_succ, IH. lia.
Qed.

Lemma encode_too_long (big_endian : bool) (r : Response) :
  (2 ^ 32 <= Z.of_nat (String.length (stdout r)))%Z ->
  encodeMessage big_endian (response_json r) = Raise StructError.
Proof.
  intros Hlen. unfold encodeMessage, pack_I. rewrite dumps_response.
  pose proof (response_text_length r) as Hle.
  destruct (Z.ltb_spec (Z.of_nat (String.length (response_text r))) (2 ^ 32));
    [lia|].
  now rewrite andb_false_r.
Qed.

(** C8 as stated fails: the length prefix has four bytes, and a response
    whose text has 2^32 characters or more is not encoded at all. *)
Lemma huge_response_not_encoded :
  Z.of_nat (String.length (stdout huge_response)) = (2 ^ 32)%Z
  /\ encodeMessage false (response_json huge_response) = Raise StructError
  /\ encodeMessage true (response_json huge_response) = Raise StructError.
Proof.
  assert (Hlen : Z.of_nat (String.length (stdout huge_response)) = (2 ^ 32)%Z).
  { change (stdout huge_response) with huge_stdout. unfold huge_stdout.
    rewrite <- nat_N_Z, iter_string_length. reflexivity. }
  split; [exact Hlen|].
  split; apply encode_too_long; rewrite Hlen; reflexivity.
Qed.

Import More.

(** * Further properties *)

(** ** The classifier on whole streams *)





Lemma loop_keeps_code (lines : list string) : forall preserve error_code,
  forallb keeps_code lines = true ->
  snd (cleanStderr_loop lines (preserve, error_code)) = error_code.
Proof.
  induction lines as [|l lines IH]; intros p e H; [reflexivity|].
  simpl in H. apply andb_prop in H as [Hl Hrest].
  unfold keeps_code, reports_code, is_no_seckey in Hl.
  cbn [cleanStderr_loop]. rewrite body_classify.
  destruct (classify l); try discriminate; try (now apply IH); try reflexivity.
  destruct (truthy p && startswith "  " l); now apply IH.
Qed.

(** X2: when no line of the stream is a channel error, a status line with
    ERROR pkdecrypt_failed or a status line with NO_SECKEY, the code is 0. *)
Theorem cleanStderr_code_default (stderr : string) :
  forallb keeps_code (split NL stderr) = true ->
  snd (cleanStderr stderr) = 0%Z.
Proof.
  intros H. unfold cleanStderr, cleanLines.
  pose proof (loop_keeps_code (split NL stderr) [] 0%Z H) as Hc.
  now destruct (cleanStderr_loop (split NL stderr) ([], 0%Z)).
Qed.

Lemma cleanStderr_code_default_witness :
  snd (cleanStderr
         ("gpg: decryption failed: Bad passphrase" +:+ String NL
            ("[GNUPG:] BEGIN_DECRYPTION" +:+ String NL "[GNUPG:] DECRYPTION_FAILED")))
  = 0%Z.
Proof.
  apply (cleanStderr_code_default
           ("gpg: decryption failed: Bad passphrase" +:+ String NL
              ("[GNUPG:] BEGIN_DECRYPTION" +:+ String NL "[GNUPG:] DECRYPTION_FAILED"))).
  reflexivity.
Defined.




(** ** Lines and entries *)

Lemma join_split (s : string) : join (String NL "") (split NL s) = s.
Proof.
  induction s as [|c s IH]; [reflexivity|]. cbn [split].
  pose proof (split_nonempty NL s) as Hne.
  destruct (Ascii.eqb_spec c NL) as [->|Hc].
  - destruct (split NL s) as [|h t]; [congruence|].
    cbn [join] in *. rewrite IH. reflexivity.
  - destruct (split NL s) as [|h t]; [congruence|].
    destruct t; cbn [join] in *; now rewrite <- IH.
Qed.

Lemma split_no_nl (l : string) : no_nl l = true -> split NL l = [l].
Proof.
  induction l as [|c l IH]; [reflexivity|]. cbn [no_nl all_chars].
  intros H. apply andb_prop in H as [Hc Hl]. cbn [split].
  apply negb_true_iff in Hc. rewrite Hc, (IH Hl). reflexivity.
Qed.

Lemma split_lines_no_nl (s : string) : Forall (fun l => no_nl l = true) (split NL s).
Proof.
  induction s as [|c s IH]; [repeat constructor|]. cbn [split].
  pose proof (split_nonempty NL s) as Hne.
  destruct (Ascii.eqb c NL) eqn:Ec.
  - constructor; [reflexivity|exact IH].
  - destruct (split NL s) as [|h t]; [congruence|].
    inversion IH; subst. constructor; [|assumption].
    cbn [no_nl all_chars]. rewrite Ec. cbn [negb andb]. assumption.
Qed.

Lemma join_cons (x y : string) (t : list string) :
  join (String NL "") (x :: y :: t) = x +:+ String NL (join (String NL "") (y :: t)).
Proof. reflexivity. Qed.

Lemma split_join (es : list string) :
  es <> [] -> split NL (join (String NL "") es) = flat_map (split NL) es.
Proof.
  induction es as [|x es IH]; [congruence|]. intros _.
  destruct es as [|y t].
  - cbn [join flat_map]. now rewrite app_nil_r.
  - rewrite join_cons, split_app, IH by discriminate. reflexivity.
Qed.

Lemma join_cons_ne (x : string) (l : list string) :
  l <> [] -> join (String NL "") (x :: l) = x +:+ String NL (join (String NL "") l).
Proof. destruct l; [congruence|reflexivity]. Qed.

Lemma join_snoc (p : list string) (l : string) :
  p <> [] -> join (String NL "") (p ++ [l]) = join (String NL "") p +:+ String NL l.
Proof.
  induction p as [|x p IH]; [congruence|]. intros _.
  destruct p as [|y t]; [reflexivity|].
  change ((x :: y :: t) ++ [l]) with (x :: ((y :: t) ++ [l])).
  rewrite (join_cons_ne x ((y :: t) ++ [l])) by discriminate.
  rewrite IH by discriminate.
  rewrite (join_cons_ne x (y :: t)) by discriminate.
  now rewrite app_assoc_s, app_cons_s.
Qed.

Lemma append_to_last_nonempty (p : list string) (x : string) :
  p <> [] -> append_to_last p x <> [].
Proof. destruct p as [|y [|z t]]; [congruence|discriminate..]. Qed.

Lemma join_append_to_last (p : list string) (x : string) :
  p <> [] ->
  join (String NL "") (append_to_last p x) = join (String NL "") p +:+ x.
Proof.
  induction p as [|y p IH]; [congruence|]. intros _.
  destruct p as [|z t]; [reflexivity|].
  change (append_to_last (y :: z :: t) x) with (y :: append_to_last (z :: t) x).
  rewrite (join_cons_ne y (append_to_last (z :: t) x))
    by (apply append_to_last_nonempty; discriminate).
  rewrite IH by discriminate.
  rewrite (join_cons_ne y (z :: t)) by discriminate.
  now rewrite app_assoc_s, app_cons_s.
Qed.

Lemma Forall_append_to_last (P : string -> Prop) (p : list string) (x : string) :
  Forall P p -> (forall y, P y -> P (y +:+ x)) -> Forall P (append_to_last p x).
Proof.
  intros Hp Hx. induction p as [|y p IH]; [constructor|].
  inversion Hp; subst. destruct p as [|z t].
  - constructor; [now apply Hx|constructor].
  - cbn [append_to_last]. constructor; [assumption|now apply IH].
Qed.

Lemma Forall_assign_slice (P : string -> Prop) (p : list string) (stop : Z) :
  Forall P p -> Forall P (assign_slice_to p stop []).
Proof.
  unfold assign_slice_to. cbn [app]. generalize (slice_index (List.length p) stop).
  intros n Hp. revert n. induction Hp; intros [|n]; cbn [skipn]; auto.
Qed.

Lemma startswith_app (p a r : string) :
  startswith p a = true -> startswith p (a +:+ r) = true.
Proof.
  intros H. apply startswith_inv in H as [t ->].
  rewrite app_assoc_s. apply startswith_same.
Qed.

(** A prefix without line feed that an entry does not start with is still
    no prefix once a line is added to the entry. *)
Lemma startswith_app_nl (p : string) : forall a r,
  no_nl p = true -> startswith p a = false ->
  startswith p (a +:+ String NL r) = false.
Proof.
  induction p as [|x p IH]; intros a r Hp Ha; [discriminate|].
  cbn [no_nl all_chars] in Hp. apply andb_prop in Hp as [Hx Hp].
  destruct a as [|y a].
  - rewrite app_nil_l_s. cbn [startswith].
    apply negb_true_iff in Hx. now rewrite Hx.
  - rewrite app_cons_s. cbn [startswith] in *.
    destruct (Ascii.eqb x y); [|reflexivity]. cbn [andb] in *. now apply IH.
Qed.

(** ** What the cleaned log is made of *)

Section Entries.

Variable input : list string.

Lemma entry_of_line (l : string) :
  no_nl l = true -> kept_line input l -> entry_of input l.
Proof.
  intros Hnl Hk. exists l, []. rewrite (split_no_nl l Hnl).
  split; [reflexivity|]. split; [assumption|constructor].
Qed.

Lemma entry_of_continued (e l : string) :
  no_nl l = true -> kept_line input l -> startswith "  " l = true ->
  entry_of input e -> entry_of input (e +:+ String NL l).
Proof.
  intros Hnl Hk Hind (h & conts & Hs & Hh & Hc).
  exists h, (conts ++ [l]). rewrite split_app, Hs, (split_no_nl l Hnl).
  split; [reflexivity|]. split; [assumption|].
  apply Forall_app. split; [assumption|].
  constructor; [split; assumption|constructor].
Qed.

Lemma loop_entries (lines : list string) : forall preserve error_code,
  (forall l, In l lines -> In l input /\ no_nl l = true) ->
  Forall (entry_of input) preserve ->
  Forall (entry_of input) (fst (cleanStderr_loop lines (preserve, error_code))).
Proof.
  induction lines as [|l lines IH]; intros p e Hin Hp; [exact Hp|].
  assert (Hl : In l input /\ no_nl l = true) by (apply Hin; now left).
  assert (Hrest : forall x, In x lines -> In x input /\ no_nl x = true)
    by (intros x Hx; apply Hin; now right).
  cbn [cleanStderr_loop]. rewrite body_classify.
  destruct (classify l) eqn:E; try (now apply IH); try exact Hp.
  - apply IH; [assumption|]. now apply Forall_assign_slice.
  - assert (Hk : kept_line input l).
    { split; [tauto|]. unfold is_text. now rewrite E. }
    destruct (truthy p && startswith "  " l) eqn:Ec.
    + apply andb_prop in Ec as [_ Hind]. apply IH; [assumption|].
      apply Forall_append_to_last; [assumption|].
      intros y Hy. apply entry_of_continued; tauto.
    + apply IH; [assumption|]. apply Forall_app. split; [assumption|].
      constructor; [|constructor]. apply entry_of_line; tauto.
Qed.

Lemma entry_lines (e line : string) :
  entry_of input e -> startswith DEBUG_PREFIX e = false ->
  In line (split NL e) ->
  kept_line input line /\ startswith DEBUG_PREFIX line = false.
Proof.
  intros (h & conts & Hs & Hh & Hc) Hdbg Hin. rewrite Hs in Hin.
  destruct Hin as [<-|Hin].
  - split; [assumption|].
    destruct (startswith DEBUG_PREFIX h) eqn:Eh; [|reflexivity].
    rewrite <- (join_split e), Hs in Hdbg.
    destruct conts as [|c conts]; cbn [join] in Hdbg; [congruence|].
    now rewrite (startswith_app _ _ _ Eh) in Hdbg.
  - rewrite List.Forall_forall in Hc. destruct (Hc line Hin) as [Hk Hind].
    split; [assumption|].
    destruct line as [|c line]; [discriminate|].
    cbn [startswith] in Hind. apply andb_prop in Hind as [Hsp _].
    apply Ascii.eqb_eq in Hsp. subst c. reflexivity.
Qed.

End Entries.

Lemma log_lines_kept (stderr line : string) :
  fst (cleanStderr stderr) <> "" ->
  In line (split NL (fst (cleanStderr stderr))) ->
  In line (split NL stderr)
  /\ is_text line = true
  /\ startswith DEBUG_PREFIX line = false.
Proof.
  unfold cleanStderr, cleanLines.
  pose proof (loop_entries (split NL stderr) (split NL stderr) [] 0%Z) as Hent.
  destruct (cleanStderr_loop (split NL stderr) ([], 0%Z)) as [p e].
  cbn [fst] in *. intros Hne Hin.
  assert (Hp : Forall (entry_of (split NL stderr)) p).
  { apply Hent; [|constructor]. intros l Hl. split; [assumption|].
    pose proof (split_lines_no_nl stderr) as H. rewrite List.Forall_forall in H.
    now apply H. }
  set (kept := List.filter (fun x => negb (startswith "gpg: DBG:" x)) p) in *.
  assert (Hkept : kept <> []) by (intros H0; rewrite H0 in Hne; now apply Hne).
  rewrite split_join in Hin by assumption.
  apply in_flat_map in Hin as (entry & Hentry & Hline).
  apply filter_In in Hentry as [Hentry Hdbg]. apply negb_true_iff in Hdbg.
  rewrite List.Forall_forall in Hp.
  destruct (entry_lines (split NL stderr) entry line (Hp entry Hentry) Hdbg Hline)
    as [[H1 H2] H3].
  now repeat split.
Qed.

(** X4: every line of a cleaned log that is not empty is a line of the
    stream on which neither the channel-error pattern nor the status prefix
    matched, and it does not start with [gpg: DBG:]. *)
Theorem cleaned_log_lines (stderr line : string) :
  fst (cleanStderr stderr) <> "" ->
  In line (split NL (fst (cleanStderr stderr))) ->
  In line (split NL stderr)
  /\ is_text line = true
  /\ startswith DEBUG_PREFIX line = false.
Proof. apply log_lines_kept. Qed.

Lemma cleaned_log_lines_witness :
  In "gpg: public key decryption failed"
     (split NL
        (fst (cleanStderr
                ("gpg: DBG: chan_5 <- OK" +:+ String NL
                   ("[GNUPG:] ENC_TO 0123456789ABCDEF 1 0" +:+ String NL
                      "gpg: public key decryption failed")))))
  /\ is_text "gpg: public key decryption failed" = true
  /\ startswith DEBUG_PREFIX "gpg: public key decryption failed" = false.
Proof.
  pose proof (cleaned_log_lines
                ("gpg: DBG: chan_5 <- OK" +:+ String NL
                   ("[GNUPG:] ENC_TO 0123456789ABCDEF 1 0" +:+ String NL
                      "gpg: public key decryption failed"))
                "gpg: public key decryption failed") as H.
  split; [now left|].
  apply H; [discriminate|now left].
Defined.

(** ** Streams of plain lines *)

Lemma loop_plain (lines : list string) : forall preserve error_code,
  preserve <> [] ->
  forallb plain_line lines = true ->
  Forall (fun x => startswith DEBUG_PREFIX x = false) preserve ->
  exists kept,
    cleanStderr_loop lines (preserve, error_code) = (kept, error_code)
    /\ kept <> []
    /\ Forall (fun x => startswith DEBUG_PREFIX x = false) kept
    /\ join (String NL "") kept = join (String NL "") (preserve ++ lines).
Proof.
  induction lines as [|l lines IH]; intros p e Hne Hplain Hp.
  - exists p. rewrite app_nil_r. now repeat split.
  - cbn [forallb] in Hplain. apply andb_prop in Hplain as [Hl Hrest].
    unfold plain_line, is_text in Hl. apply andb_prop in Hl as [Htext Hdbg].
    apply negb_true_iff in Hdbg.
    cbn [cleanStderr_loop]. rewrite body_classify.
    destruct (classify l); try discriminate.
    assert (Hjoin : forall q, q <> [] ->
               join (String NL "") q = join (String NL "") (p ++ [l]) ->
               join (String NL "") (q ++ lines)
               = join (String NL "") (p ++ l :: lines)).
    { intros q Hq Hj.
      replace (p ++ l :: lines) with ((p ++ [l]) ++ lines)
        by (rewrite <- app_assoc; reflexivity).
      destruct lines as [|x lines]; [now rewrite !app_nil_r|].
      assert (Happ : forall a : list string, a <> [] ->
                 join (String NL "") (a ++ x :: lines)
                 = join (String NL "") a
                     +:+ String NL (join (String NL "") (x :: lines))).
      { clear. induction a as [|y a IHa]; [congruence|]. intros _.
        destruct a as [|z a]; [reflexivity|].
        change ((y :: z :: a) ++ x :: lines) with (y :: ((z :: a) ++ x :: lines)).
        rewrite (join_cons_ne y ((z :: a) ++ x :: lines)) by discriminate.
        rewrite IHa by discriminate.
        rewrite (join_cons_ne y (z :: a)) by discriminate.
        now rewrite app_assoc_s, app_cons_s. }
      rewrite (Happ q Hq), (Happ (p ++ [l])), Hj; [reflexivity|].
      destruct p; discriminate. }
    destruct (truthy p && startswith "  " l).
    + destruct (IH (append_to_last p (String NL l)) e) as (kept & Hk & Hkne & Hkd & Hkj);
        [now apply append_to_last_nonempty|assumption| |].
      { apply Forall_append_to_last; [assumption|].
        intros y Hy. now apply startswith_app_nl. }
      exists kept. repeat split; try assumption.
      rewrite Hkj. apply Hjoin; [now apply append_to_last_nonempty|].
      now rewrite join_append_to_last, join_snoc.
    + destruct (IH (p ++ [l]) e) as (kept & Hk & Hkne & Hkd & Hkj);
        [destruct p; discriminate|assumption| |].
      { apply Forall_app. split; [assumption|]. now repeat constructor. }
      exists kept. repeat split; try assumption.
      rewrite Hkj. now rewrite <- app_assoc.
Qed.

Lemma filter_all {A : Type} (f : A -> bool) (l : list A) :
  Forall (fun x => f x = true) l -> List.filter f l = l.
Proof.
  induction 1 as [|x l Hx _ IH]; [reflexivity|].
  cbn [List.filter]. now rewrite Hx, IH.
Qed.

Lemma plain_stream_fixed (stderr : string) :
  forallb plain_line (split NL stderr) = true ->
  cleanStderr stderr = (stderr, 0%Z).
Proof.
  intros Hplain. unfold cleanStderr, cleanLines.
  pose proof (join_split stderr) as Hjs.
  destruct (split NL stderr) as [|l lines] eqn:Es.
  { now destruct (split_nonempty NL stderr). }
  cbn [forallb] in Hplain. apply andb_prop in Hplain as [Hl Hrest].
  pose proof Hl as Hl'. unfold plain_line, is_text in Hl'.
  apply andb_prop in Hl' as [Htext Hdbg]. apply negb_true_iff in Hdbg.
  cbn [cleanStderr_loop]. rewrite body_classify.
  destruct (classify l); try discriminate.
  cbn [truthy andb app].
  destruct (loop_plain lines [l] 0%Z) as (kept & -> & Hne & Hkd & Hj);
    [discriminate|assumption|now repeat constructor|].
  rewrite filter_all.
  - cbn [app] in Hj. now rewrite Hj, Hjs.
  - revert Hkd. apply List.Forall_impl. intros x Hx.
    unfold DEBUG_PREFIX in Hx. now rewrite Hx.
Qed.

(** X5: a stream in which the classifier finds neither a channel error nor
    a status line, and in which no line starts with [gpg: DBG:], comes back
    as it is, with code 0; indented lines are joined to the line before
    them and come out in the same place. *)
Theorem plain_stream_unchanged (stderr : string) :
  forallb plain_line (split NL stderr) = true ->
  cleanStderr stderr = (stderr, 0%Z).
Proof. apply plain_stream_fixed. Qed.

Lemma plain_stream_unchanged_witness :
  cleanStderr
    ("gpg: decryption failed: No secret key" +:+ String NL
       ("  (key 0123456789ABCDEF)" +:+ String NL "Error: could not decrypt"))
  = ("gpg: decryption failed: No secret key" +:+ String NL
       ("  (key 0123456789ABCDEF)" +:+ String NL "Error: could not decrypt"),
     0%Z).
Proof.
  apply (plain_stream_unchanged
           ("gpg: decryption failed: No secret key" +:+ String NL
              ("  (key 0123456789ABCDEF)" +:+ String NL "Error: could not decrypt"))).
  reflexivity.
Defined.

(** X6: cleaning is idempotent: a log that [cleanStderr] returned comes
    back unchanged, with code 0, when it is cleaned again. *)
Theorem cleanStderr_idempotent (stderr : string) :
  cleanStderr (fst (cleanStderr stderr)) = (fst (cleanStderr stderr), 0%Z).
Proof.
  destruct (string_dec (fst (cleanStderr stderr)) "") as [E|Hne].
  - rewrite E. reflexivity.
  - apply plain_stream_fixed. apply forallb_forall. intros line Hin.
    destruct (log_lines_kept stderr line Hne Hin) as (_ & Ht & Hd).
    unfold plain_line. now rewrite Ht, Hd.
Qed.

(** ** More on [setFlags] and the environment of the child *)

Lemma remove_flag_absent (flag s : string) :
  occurrences ("--" +:+ flag) s = 0 -> remove_flag flag s = s.
Proof.
  induction s as [|c s IH]; [reflexivity|]. cbn [occurrences]. intros H.
  assert (Hst : startswith ("--" +:+ flag) (String c s) = false).
  { destruct (startswith ("--" +:+ flag) (String c s)); [discriminate|reflexivity]. }
  rewrite Hst in H. cbn [plus] in H.
  rewrite remove_flag_cons. unfold flag_match.
  rewrite startswith_drop_prefix in Hst.
  destruct (drop_prefix ("--" +:+ flag) (String c s)); [discriminate|].
  now rewrite IH.
Qed.

(** X7: an option string that holds neither [--status-fd] nor [--debug]
    keeps all its text: the composed value is the two flags, a space and
    the option string, stripped of surrounding white space. *)
Theorem other_options_kept (env : gmap string string) (opts : string) :
  default "" (env !! GPG_OPTS) = opts ->
  occurrences "--status-fd" opts = 0 ->
  occurrences "--debug" opts = 0 ->
  setFlags env REQUIRED_FLAGS !! GPG_OPTS
  = Some (strip ("--debug=ipc --status-fd=2 " +:+ opts)).
Proof.
  intros Hopts Hs Hd. rewrite setFlags_required, lookup_insert_eq, Hopts.
  rewrite (remove_flag_absent "status-fd" opts Hs).
  now rewrite (remove_flag_absent "debug" opts Hd).
Qed.

Lemma other_options_kept_witness :
  setFlags {[ GPG_OPTS := "--batch --no-tty " ]} REQUIRED_FLAGS !! GPG_OPTS
  = Some "--debug=ipc --status-fd=2 --batch --no-tty".
Proof.
  apply (other_options_kept {[ GPG_OPTS := "--batch --no-tty " ]} "--batch --no-tty ");
    reflexivity.
Defined.

(** X8: when the environment does not set the variable, the composed
    option string is exactly the two flags. *)
Theorem options_from_scratch (env : gmap string string) :
  env !! GPG_OPTS = None ->
  setFlags env REQUIRED_FLAGS !! GPG_OPTS = Some "--debug=ipc --status-fd=2".
Proof.
  intros H. rewrite setFlags_required, lookup_insert_eq, H. reflexivity.
Qed.

Lemma options_from_scratch_witness :
  setFlags {[ "HOME" := "/root" ]} REQUIRED_FLAGS !! GPG_OPTS
  = Some "--debug=ipc --status-fd=2".
Proof.
  apply (options_from_scratch {[ "HOME" := "/root" ]}). reflexivity.
Defined.

Lemma rstrip_idempotent (t : string) : rstrip (rstrip t) = rstrip t.
Proof.
  induction t as [|c t IH]; [reflexivity|]. cbn [rstrip].
  destruct (rstrip t) as [|y r] eqn:E.
  - destruct (is_space c) eqn:Ec; [reflexivity|]. cbn [rstrip]. now rewrite Ec.
  - cbn [rstrip] in *. rewrite IH. reflexivity.
Qed.

(** X9: whatever the environment holds, the composed option string starts
    with the two injected flags and has no white space at either end. *)
Theorem composed_options_shape (env : gmap string string) :
  exists final,
    setFlags env REQUIRED_FLAGS !! GPG_OPTS = Some final
    /\ startswith "--debug=ipc --status-fd=2" final = true
    /\ strip final = final.
Proof.
  rewrite setFlags_required, lookup_insert_eq, strip_composed.
  eexists. split; [reflexivity|]. split; [apply startswith_same|].
  unfold strip.
  set (y := rstrip (String " " _)).
  change (lstrip ("--debug=ipc --status-fd=2" +:+ y))
    with ("--debug=ipc --status-fd=" +:+ String "2" y).
  rewrite rstrip_app_not_space by reflexivity.
  unfold y. now rewrite rstrip_idempotent.
Qed.

Section ChildEnvironment.

Variable home : string.
Variable environ : gmap string string.

Lemma command_env_unfold :
  command_env home environ =
  setFlags
    (<["PATH" := "/usr/local/bin:/usr/bin:/bin:/usr/sbin:/sbin"]>
       (<["TREE_CHARSET" := "ISO-8859-1"]>
          (match environ !! "HOME" with
           | Some _ => environ
           | None => <["HOME" := home]> environ
           end)))
    REQUIRED_FLAGS.
Proof. reflexivity. Qed.

(** X10: the child gets the fixed search path and character set whatever
    the host's environment says, keeps the host's HOME or gets the home
    directory of the user when there is none, and gets every variable
    other than these three and the gpg options unchanged. *)
Theorem command_env_variables :
  command_env home environ !! "PATH"
  = Some "/usr/local/bin:/usr/bin:/bin:/usr/sbin:/sbin"
  /\ command_env home environ !! "TREE_CHARSET" = Some "ISO-8859-1"
  /\ command_env home environ !! "HOME" = Some (default home (environ !! "HOME"))
  /\ forall name,
       name <> "PATH" -> name <> "TREE_CHARSET" -> name <> "HOME" ->
       name <> GPG_OPTS ->
       command_env home environ !! name = environ !! name.
Proof.
  rewrite command_env_unfold, setFlags_required.
  repeat split.
  - rewrite lookup_insert_ne by discriminate. now rewrite lookup_insert_eq.
  - rewrite !lookup_insert_ne by discriminate. now rewrite lookup_insert_eq.
  - rewrite !lookup_insert_ne by discriminate.
    destruct (environ !! "HOME") eqn:E; [now rewrite E|].
    now rewrite lookup_insert_eq.
  - intros name H1 H2 H3 H4.
    rewrite !lookup_insert_ne by congruence.
    destruct (environ !! "HOME"); [reflexivity|].
    now rewrite lookup_insert_ne by congruence.
Qed.

End ChildEnvironment.

(** ** More on the dispatch *)

Lemma bind_Ok_inv {A B : Type} (x : result A) (f : A -> result B) (y : B) :
  bind x f = Ok y -> exists a, x = Ok a /\ f a = Ok y.
Proof. destruct x; cbn [bind]; [eauto|discriminate..]. Qed.

Ltac invert_ok :=
  repeat match goal with
    | H : bind _ _ = Ok _ |- _ =>
        let E := fresh "E" in
        apply bind_Ok_inv in H as (? & E & H); cbn beta in H
    | H : (if ?b then _ else _) = Ok _ |- _ => destruct b eqn:?
    | H : match ?p with pair _ _ => _ end = Ok _ |- _ => destruct p
    | H : Ok _ = Ok _ |- _ => inversion H; clear H; subst
    | H : Raise _ = Ok _ |- _ => discriminate H
    | H : Exit _ = Ok _ |- _ => discriminate H
    end.

(** X11: whatever the request, the options of the command come from a
    fixed list of six, so no text of the request ever stands in front of
    the [--] separator; and there are one or two positional arguments. *)
Theorem dispatch_options_fixed
        (request : json) (opt_args : list string) (pos_args : list json)
        (std_input : json) :
  dispatch request = Ok (opt_args, pos_args, std_input) ->
  In opt_args OPTION_LISTS
  /\ 1 <= List.length pos_args <= 2
  /\ command_line opt_args pos_args
     = JStr "pass" :: List.map JStr opt_args ++ JStr "--" :: pos_args.
Proof.
  intros H. split; [|split; [|reflexivity]];
    unfold dispatch, COMMAND_ARGS in H; invert_ok; rewrite ?app_nil_r;
    cbn [OPTION_LISTS In List.length]; try tauto; try lia.
  all: match goal with
       | |- context [if ?b then _ else _] => destruct b; tauto
       end.
Qed.

Lemma dispatch_options_fixed_witness :
  In ["generate"; "-n"] OPTION_LISTS
  /\ 1 <= List.length [JStr "/mail/x"; JStr "12"] <= 2
  /\ command_line ["generate"; "-n"] [JStr "/mail/x"; JStr "12"]
     = JStr "pass" :: List.map JStr ["generate"; "-n"]
         ++ JStr "--" :: [JStr "/mail/x"; JStr "12"].
Proof.
  apply (dispatch_options_fixed
           (JArr [JStr "generate"; JStr "/mail/x"; JStr "12"; JStr "-n"])
           ["generate"; "-n"] [JStr "/mail/x"; JStr "12"] JNull).
  reflexivity.
Defined.

(** X12: the key normalisation succeeds on non-empty strings only; its
    result starts with the separator, and normalising the result again
    changes nothing. *)
Theorem normalize_key_result (key key' : json) :
  normalize_key key = Ok key' ->
  exists k,
    key = JStr k /\ k <> EmptyString
    /\ key' = JStr (with_leading_separator k)
    /\ startswith "/" (with_leading_separator k) = true
    /\ normalize_key key' = Ok key'.
Proof.
  intros H. destruct key as [| b | n | k | l | l]; try discriminate H.
  - destruct k as [|c k]; [discriminate H|].
    rewrite normalize_key_nonempty in H. inversion H; subst. clear H.
    exists (String c k). split; [reflexivity|]. split; [discriminate|].
    split; [reflexivity|].
    assert (Hs : startswith "/" (with_leading_separator (String c k)) = true).
    { unfold with_leading_separator.
      destruct (startswith "/" (String c k)) eqn:E; [exact E|reflexivity]. }
    split; [exact Hs|].
    destruct (with_leading_separator (String c k)) as [|c' k'] eqn:Ew;
      [discriminate Hs|].
    rewrite normalize_key_nonempty. unfold with_leading_separator. now rewrite Hs.
  - destruct l as [|x l]; [discriminate H|].
    unfold normalize_key in H. cbn [py_getitem nth_error bind] in H.
    destruct (py_eq_str x "/"); discriminate H.
Qed.

Lemma normalize_key_result_witness :
  exists k,
    JStr "mail/x" = JStr k /\ k <> EmptyString
    /\ JStr "/mail/x" = JStr (with_leading_separator k)
    /\ startswith "/" (with_leading_separator k) = true
    /\ normalize_key (JStr "/mail/x") = Ok (JStr "/mail/x").
Proof.
  apply (normalize_key_result (JStr "mail/x") (JStr "/mail/x")). reflexivity.
Defined.

(** X13: on a request that is an array of strings the dispatch either
    yields a command or raises IndexError, and it raises exactly when an
    insert or generate request has fewer than three elements or the key of
    an otp or show request is empty. *)
Theorem dispatch_on_strings (strs : list string) :
  (request_accepted strs = true ->
   exists command, dispatch (JArr (List.map JStr strs)) = Ok command)
  /\ (request_accepted strs = false ->
      dispatch (JArr (List.map JStr strs)) = Raise IndexError).
Proof.
  destruct strs as [|a rest]; [split; [eauto|discriminate]|].
  unfold request_accepted, dispatch.
  cbn [List.map py_len bind List.length Nat.eqb py_getitem nth_error py_eq_str].
  destruct (String.eqb a "insert") eqn:Ei.
  { cbn [orb]. destruct rest as [|b [|c rest]]; cbn; split;
      intros; try discriminate; eauto. }
  destruct (String.eqb a "generate") eqn:Eg.
  { cbn [orb]. destruct rest as [|b [|c rest]]; cbn; split;
      intros; try discriminate; eauto. }
  cbn [orb].
  rewrite length_map.
  change (Nat.eqb (S (List.length rest)) 2) with (Nat.eqb (List.length rest) 1).
  destruct (String.eqb a "grepMetaUrls" && Nat.eqb (List.length rest) 1) eqn:Eq.
  { apply andb_prop in Eq as [_ Hlen].
    destruct rest as [|b [|c rest]]; try discriminate Hlen.
    cbn. split; intros; try discriminate; eauto. }
  destruct (String.eqb a "otp" && Nat.eqb (List.length rest) 1) eqn:Eo.
  { apply andb_prop in Eo as [_ Hlen].
    destruct rest as [|b [|c rest]]; try discriminate Hlen.
    cbn [List.map nth_error bind nth].
    destruct b as [|c b]; [split; [discriminate|reflexivity]|].
    rewrite normalize_key_nonempty. cbn. split; [eauto|discriminate]. }
  destruct a as [|c a]; [split; [discriminate|reflexivity]|].
  rewrite normalize_key_nonempty. cbn. split; [eauto|discriminate].
Qed.

(** X14: a request to generate a password passes the path and the length
    on as they are, and asks for no symbols exactly when [-n] is among the
    elements after the length; a path or a length that reads [-n] does not
    count. *)
Theorem generate_options (path length : json) (flags : list json) :
  exists opt_args,
    dispatch (JArr (JStr "generate" :: path :: length :: flags))
    = Ok (opt_args, [path; length], JNull)
    /\ (In (JStr "-n") flags -> opt_args = ["generate"; "-n"])
    /\ (~ In (JStr "-n") flags -> opt_args = ["generate"]).
Proof.
  assert (Hin : existsb (fun v => py_eq_str v "-n") flags = true
                <-> In (JStr "-n") flags).
  { rewrite existsb_exists. split.
    - intros (v & Hv & E). destruct v; try discriminate E.
      cbn [py_eq_str] in E. apply String.eqb_eq in E. now subst.
    - intros H. exists (JStr "-n"). split; [exact H|reflexivity]. }
  unfold dispatch. cbn -[existsb]. change (drop 0 flags) with flags.
  destruct (existsb (fun v => py_eq_str v "-n") flags) eqn:E.
  - eexists. split; [reflexivity|]. split; [reflexivity|].
    intros Hn. destruct Hn. now apply Hin.
  - eexists. split; [reflexivity|]. split; [|reflexivity].
    intros H. apply Hin in H. discriminate H.
Qed.

(** ** Messages in general: any value read back from its text *)

Lemma json_nested_ind (P : json -> Prop) :
  P JNull -> (forall b, P (JBool b)) -> (forall n, P (JInt n)) ->
  (forall s, P (JStr s)) ->
  (forall l, List.Forall P l -> P (JArr l)) ->
  (forall l, List.Forall (fun kv => P (snd kv)) l -> P (JObj l)) ->
  forall v, P v.
Proof.
  intros Hnull Hbool Hint Hstr Harr Hobj. fix IH 1. intros [| b | n | s | l | l].
  - exact Hnull.
  - apply Hbool.
  - apply Hint.
  - apply Hstr.
  - apply Harr. induction l as [|x l IHl]; constructor; [apply IH|exact IHl].
  - apply Hobj. induction l as [|kv l IHl]; constructor; [apply IH|exact IHl].
Qed.

Lemma dumps_arr (l : list json) :
  dumps (JArr l) = "[" +:+ join ", " (List.map dumps l) +:+ "]".
Proof. reflexivity. Qed.

Lemma dumps_obj (l : list (string * json)) :
  dumps (JObj l) = "{" +:+ join ", " (List.map member l) +:+ "}".
Proof. reflexivity. Qed.

Lemma join_sep_cons (sep x y : string) (t : list string) :
  join sep (x :: y :: t) = x +:+ sep +:+ join sep (y :: t).
Proof. reflexivity. Qed.

Lemma digit_head (c : ascii) :
  is_digit c = true \/ c = "-"%char \/ c = DQUOTE \/ c = "["%char
  \/ c = "{"%char \/ c = "n"%char \/ c = "t"%char \/ c = "f"%char ->
  is_ws c = false /\ Ascii.eqb c "]" = false /\ Ascii.eqb c "}" = false.
Proof.
  intros H. repeat (destruct H as [H|H]); try (subst c; now vm_compute).
  revert H. each_char c; intros H; vm_compute in H; try discriminate H;
    now vm_compute.
Qed.

(** The first character of the text of a value. *)
Lemma dumps_head (v : json) :
  exists c s,
    dumps v = String c s
    /\ is_ws c = false /\ Ascii.eqb c "]" = false /\ Ascii.eqb c "}" = false.
Proof.
  destruct v as [| b | n | s | l | l].
  - exists "n"%char, "ull". split; [reflexivity|]. apply digit_head. tauto.
  - destruct b.
    + exists "t"%char, "rue". split; [reflexivity|]. apply digit_head. tauto.
    + exists "f"%char, "alse". split; [reflexivity|]. apply digit_head. tauto.
  - cbn [dumps]. unfold repr_int. cbv zeta.
    destruct (Z.ltb_spec n 0) as [Hneg|Hpos].
    + eexists _, _. split; [reflexivity|]. apply digit_head. tauto.
    + destruct (repr_nat_spec n) as (c & d & -> & Hc & _); [lia|].
      exists c, d. split; [reflexivity|]. apply digit_head. tauto.
  - eexists _, _. split; [reflexivity|]. apply digit_head. tauto.
  - rewrite dumps_arr, app_cons_s. eexists _, _. split; [reflexivity|].
    apply digit_head. tauto.
  - rewrite dumps_obj, app_cons_s. eexists _, _. split; [reflexivity|].
    apply digit_head. tauto.
Qed.

Lemma skip_ws_head (c : ascii) (s : string) :
  is_ws c = false -> skip_ws (String c s) = String c s.
Proof. intros H. unfold skip_ws. cbn [drop_while]. now rewrite H. Qed.

Lemma skip_ws_dumps (v : json) (tail : string) :
  skip_ws (dumps v +:+ tail) = dumps v +:+ tail.
Proof.
  destruct (dumps_head v) as (c & s & -> & Hws & _).
  rewrite app_cons_s. now apply skip_ws_head.
Qed.

Lemma items_head (x : json) (l : list json) (tail : string) :
  exists c s,
    join ", " (List.map dumps (x :: l)) +:+ tail = String c s
    /\ is_ws c = false /\ Ascii.eqb c "]" = false.
Proof.
  destruct (dumps_head x) as (c & s & E & Hws & Hb & _).
  destruct l as [|y l]; cbn [List.map].
  - cbn [join]. rewrite E, app_cons_s. eauto.
  - rewrite join_sep_cons, E, !app_cons_s. eauto.
Qed.

Lemma closes_not_number (tail : string) :
  closes tail = true -> starts_with_digit tail = false /\ float_tail tail = false.
Proof.
  destruct tail as [|c tail]; [now split|]. cbn [closes].
  each_char c; intros H; vm_compute in H; try discriminate H; now split.
Qed.

(** The text of an integer is read back as that integer. *)
Lemma scan_once_int (fuel : nat) (n : Z) (tail : string) :
  closes tail = true ->
  scan_once (S fuel) (repr_int n +:+ tail) = Ok (JInt n, tail).
Proof.
  intros Htail. destruct (closes_not_number tail Htail) as [Hd Hf].
  unfold repr_int. cbv zeta. destruct (Z.ltb_spec n 0) as [Hneg|Hpos].
  - destruct (repr_nat_spec (- n)%Z) as (c & d & -> & Hc & Hds & Hint & Hnz & Hz);
      [lia|].
    rewrite !app_cons_s. rewrite scan_once_minus by assumption.
    rewrite (scan_natural_digits c d tail (- n)%Z) by assumption.
    cbn [bind]. rewrite Hf, Z.opp_involutive. reflexivity.
  - destruct (repr_nat_spec n) as (c & d & -> & Hc & Hds & Hint & Hnz & Hz);
      [lia|].
    rewrite !app_cons_s. rewrite scan_once_digit by assumption.
    rewrite (scan_natural_digits c d tail n) by assumption.
    cbn [bind]. now rewrite Hf.
Qed.

Lemma scan_once_quote (fuel : nat) (s : string) :
  scan_once (S fuel) (String DQUOTE s)
  = (let* (x, rest) := scanstring s in Ok (JStr x, rest)).
Proof. reflexivity. Qed.

Lemma scan_once_array (fuel : nat) (c : ascii) (s : string) :
  is_ws c = false -> Ascii.eqb c "]" = false ->
  scan_once (S fuel) (String "[" (String c s)) = parse_items fuel (String c s) [].
Proof.
  each_char c; intros H1 H2; vm_compute in H1; vm_compute in H2;
    try discriminate H1; try discriminate H2; reflexivity.
Qed.

Lemma scan_once_object (fuel : nat) (s : string) :
  scan_once (S fuel) (String "{" (String DQUOTE s))
  = parse_members fuel (String DQUOTE s) [].
Proof. reflexivity. Qed.

Lemma parse_items_eq (fuel : nat) (s : string) (acc : list json) :
  parse_items (S fuel) s acc
  = (let* (v, rest) := scan_once fuel s in
     match skip_ws rest with
     | String "]" rest' => Ok (JArr (acc ++ [v]), rest')
     | String "," rest' => parse_items fuel (skip_ws rest') (acc ++ [v])
     | _ => Raise JSONDecodeError
     end).
Proof. reflexivity. Qed.

Lemma parse_members_eq (fuel : nat) (s : string) (acc : list (string * json)) :
  parse_members (S fuel) (String DQUOTE s) acc
  = (let* (key, rest) := scanstring s in
     match skip_ws rest with
     | String ":" rest1 =>
         let* (v, rest2) := scan_once fuel (skip_ws rest1) in
         match skip_ws rest2 with
         | String "}" rest3 => Ok (JObj (dict_set acc key v), rest3)
         | String "," rest3 =>
             parse_members fuel (skip_ws rest3) (dict_set acc key v)
         | _ => Raise JSONDecodeError
         end
     | _ => Raise JSONDecodeError
     end).
Proof. reflexivity. Qed.

Lemma sep_app (s : string) : ", " +:+ s = String "," (String " " s).
Proof. reflexivity. Qed.

Lemma member_text (k : string) (x : json) (rest : string) :
  member (k, x) +:+ rest
  = String DQUOTE
      (escape k +:+ String DQUOTE (String ":" (String " " (dumps x +:+ rest)))).
Proof.
  unfold member, dumps_str. cbn [fst snd].
  rewrite !app_cons_s, !app_assoc_s, !app_cons_s, !app_nil_l_s. reflexivity.
Qed.

Lemma dict_set_fresh (acc : list (string * json)) (k : string) (v : json) :
  ~ In k (List.map fst acc) -> dict_set acc k v = acc ++ [(k, v)].
Proof.
  induction acc as [|[k' v'] acc IH]; intros Hk; [reflexivity|].
  cbn [dict_set List.map fst In app] in *.
  destruct (String.eqb_spec k' k) as [->|Hne]; [tauto|].
  rewrite IH by tauto. reflexivity.
Qed.

Lemma distinct_NoDup (keys : list string) : distinct keys = true -> List.NoDup keys.
Proof.
  induction keys as [|k keys IH]; [constructor|]. cbn [distinct].
  intros H. apply andb_prop in H as [Hk Hd]. apply List.NoDup_cons; [|now apply IH].
  intros Hin. apply negb_true_iff in Hk.
  assert (Hex : existsb (String.eqb k) keys = true).
  { apply existsb_exists. exists k. split; [exact Hin|apply String.eqb_refl]. }
  congruence.
Qed.

Lemma parse_items_dumps (l : list json) :
  List.Forall reads_back l ->
  forall x fuel acc tail,
    reads_back x ->
    forallb distinct_keys (x :: l) = true ->
    fold_right (fun x n => S (cost x + n)) 0 (x :: l) <= fuel ->
    parse_items fuel (join ", " (List.map dumps (x :: l)) +:+ String "]" tail) acc
    = Ok (JArr (acc ++ x :: l), tail).
Proof.
  induction 1 as [|y l Hy Hl IH]; intros x fuel acc tail Hx Hwf Hfuel;
    cbn [forallb fold_right] in Hwf, Hfuel;
    apply andb_prop in Hwf as [Hwx Hwl];
    (destruct fuel as [|fuel]; [lia|]); rewrite parse_items_eq.
  - cbn [List.map join].
    rewrite (Hx Hwx fuel (String "]" tail)) by (reflexivity || lia).
    reflexivity.
  - cbn [List.map]. rewrite join_sep_cons, !app_assoc_s, sep_app.
    rewrite (Hx Hwx fuel) by (reflexivity || lia).
    cbn [bind].
    change (skip_ws (String "," ?z)) with (String "," z). cbv iota beta.
    change (skip_ws (String " " ?z)) with (skip_ws z).
    destruct (items_head y l (String "]" tail)) as (c & s & E & Hws & _).
    change (dumps y :: List.map dumps l) with (List.map dumps (y :: l)).
    rewrite E, (skip_ws_head c s Hws), <- E.
    rewrite (IH y fuel (acc ++ [x]) tail Hy Hwl) by (cbn [fold_right]; lia).
    now rewrite <- List.app_assoc.
Qed.

Lemma parse_members_dumps (l : list (string * json)) :
  List.Forall (fun kv => reads_back (snd kv)) l ->
  forall k x fuel acc tail,
    reads_back x ->
    List.NoDup (List.map fst acc ++ k :: List.map fst l) ->
    forallb (fun kv => distinct_keys (snd kv)) ((k, x) :: l) = true ->
    fold_right (fun kv n => S (cost (snd kv) + n)) 0 ((k, x) :: l) <= fuel ->
    parse_members fuel
      (join ", " (List.map member ((k, x) :: l)) +:+ String "}" tail) acc
    = Ok (JObj (acc ++ (k, x) :: l), tail).
Proof.
  induction 1 as [|[k' y] l Hy Hl IH]; intros k x fuel acc tail Hx Hnd Hwf Hfuel;
    cbn [forallb fold_right snd] in Hwf, Hfuel;
    apply andb_prop in Hwf as [Hwx Hwl];
    (destruct fuel as [|fuel]; [lia|]);
    pose proof (List.NoDup_remove_2 _ _ _ Hnd) as Hfresh;
    assert (Hk : ~ In k (List.map fst acc))
      by (intros Hin; apply Hfresh, in_or_app; now left).
  - cbn [List.map join]. rewrite member_text, parse_members_eq.
    rewrite scanstring_escape. cbn [bind].
    change (skip_ws (String ":" ?z)) with (String ":" z). cbv iota beta.
    change (skip_ws (String " " ?z)) with (skip_ws z).
    rewrite skip_ws_dumps.
    rewrite (Hx Hwx fuel (String "}" tail)) by (reflexivity || lia).
    cbn [bind].
    change (skip_ws (String "}" ?z)) with (String "}" z). cbv iota beta.
    now rewrite dict_set_fresh.
  - cbn [List.map]. rewrite join_sep_cons, !app_assoc_s, sep_app.
    rewrite member_text, parse_members_eq.
    rewrite scanstring_escape. cbn [bind].
    change (skip_ws (String ":" ?z)) with (String ":" z). cbv iota beta.
    change (skip_ws (String " " ?z)) with (skip_ws z).
    rewrite skip_ws_dumps.
    rewrite (Hx Hwx fuel) by (reflexivity || lia).
    cbn [bind].
    change (skip_ws (String "," ?z)) with (String "," z). cbv iota beta.
    change (skip_ws (String " " ?z)) with (skip_ws z).
    change (member (k', y) :: List.map member l)
      with (List.map member ((k', y) :: l)).
    assert (Eq : skip_ws (join ", " (List.map member ((k', y) :: l))
                          +:+ String "}" tail)
                 = join ", " (List.map member ((k', y) :: l)) +:+ String "}" tail).
    { destruct l as [|kv l]; cbn [List.map].
      - cbn [join]. now rewrite member_text.
      - now rewrite join_sep_cons, !app_assoc_s, member_text. }
    rewrite Eq, dict_set_fresh by exact Hk.
    rewrite (IH k' y fuel (acc ++ [(k, x)]) tail Hy);
      [| |exact Hwl|cbn [fold_right snd]; lia].
    + now rewrite <- List.app_assoc.
    + rewrite List.map_app, <- List.app_assoc. exact Hnd.
Qed.

Lemma scan_once_dumps (v : json) : reads_back v.
Proof.
  induction v as [| b | n | s | l IH | l IH] using json_nested_ind;
    intros Hwf fuel tail Hfuel Htail;
    (destruct fuel as [|fuel]; [cbn [cost] in Hfuel; lia|]).
  - reflexivity.
  - destruct b; reflexivity.
  - now apply scan_once_int.
  - cbn [dumps]. unfold dumps_str.
    rewrite !app_cons_s, app_assoc_s, app_cons_s, app_nil_l_s.
    rewrite scan_once_quote, scanstring_escape. reflexivity.
  - rewrite dumps_arr. destruct l as [|x l]; [reflexivity|].
    rewrite !app_cons_s, !app_nil_l_s, app_assoc_s, app_cons_s, app_nil_l_s.
    destruct (items_head x l (String "]" tail)) as (c & s & E & Hws & Hb).
    rewrite E, scan_once_array by assumption. rewrite <- E.
    inversion IH as [|? ? Hx Hl]; subst.
    cbn [cost] in Hfuel.
    apply (parse_items_dumps l Hl x fuel [] tail Hx); [exact Hwf|lia].
  - rewrite dumps_obj. destruct l as [|[k x] l]; [reflexivity|].
    rewrite !app_cons_s, !app_nil_l_s, app_assoc_s, app_cons_s, app_nil_l_s.
    cbn [distinct_keys] in Hwf. apply andb_prop in Hwf as [Hkeys Hwf].
    inversion IH as [|? ? Hx Hl]; subst. cbn [snd] in Hx.
    cbn [cost] in Hfuel.
    assert (E : exists s,
               join ", " (List.map member ((k, x) :: l)) +:+ String "}" tail
               = String DQUOTE s).
    { destruct l as [|kv l]; cbn [List.map].
      - cbn [join]. rewrite member_text. eauto.
      - rewrite join_sep_cons, !app_assoc_s, member_text. eauto. }
    destruct E as [s E]. rewrite E, scan_once_object, <- E.
    apply (parse_members_dumps l Hl k x fuel [] tail Hx);
      [now apply distinct_NoDup|exact Hwf|lia].
Qed.

Lemma join_length_bound (items : list string) (costs : list nat) :
  Forall2 (fun c s => c <= String.length s) costs items ->
  fold_right (fun c n => S (c + n)) 0 costs
  <= S (String.length (join ", " items)).
Proof.
  induction 1 as [|c s costs items Hc Hrest IH]; [cbn; lia|].
  destruct Hrest as [|c' s' costs' items' Hc' Hrest'].
  - cbn [fold_right join]. lia.
  - rewrite join_sep_cons, !length_app_s. cbn [fold_right String.length] in *.
    lia.
Qed.

Lemma cost_le_length (v : json) : cost v <= String.length (dumps v).
Proof.
  induction v as [| b | n | s | l IH | l IH] using json_nested_ind.
  - cbn. lia.
  - destruct b; cbn; lia.
  - destruct (dumps_head (JInt n)) as (c & s & -> & _). cbn. lia.
  - destruct (dumps_head (JStr s)) as (c & t & -> & _). cbn. lia.
  - rewrite dumps_arr, !length_app_s. cbn [cost String.length].
    assert (H : fold_right (fun x n => S (cost x + n)) 0 l
                <= S (String.length (join ", " (List.map dumps l)))).
    { replace (fold_right (fun x n => S (cost x + n)) 0 l)
        with (fold_right (fun c n => S (c + n)) 0 (List.map cost l)).
      - apply join_length_bound.
        induction IH; cbn [List.map]; constructor; assumption.
      - clear IH. induction l as [|x l IHl]; [reflexivity|].
        cbn [fold_right List.map]. now rewrite IHl. }
    lia.
  - rewrite dumps_obj, !length_app_s. cbn [cost String.length].
    assert (H : fold_right (fun kv n => S (cost (snd kv) + n)) 0 l
                <= S (String.length (join ", " (List.map member l)))).
    { replace (fold_right (fun kv n => S (cost (snd kv) + n)) 0 l)
        with (fold_right (fun c n => S (c + n)) 0
                (List.map (fun kv => cost (snd kv)) l)).
      - apply join_length_bound.
        induction IH as [|[k x] l Hx Hl IHl]; cbn [List.map]; constructor;
          [|assumption].
        unfold member. cbn [fst snd] in *. rewrite !length_app_s. lia.
      - clear IH. induction l as [|x l IHl]; [reflexivity|].
        cbn [fold_right List.map]. now rewrite IHl. }
    lia.
Qed.

(** [json.loads] undoes [json.dumps] on every value whose objects have
    distinct keys. *)
Lemma loads_dumps (v : json) : distinct_keys v = true -> loads (dumps v) = Ok v.
Proof.
  intros Hwf. unfold loads.
  pose proof (skip_ws_dumps v "") as Hws. rewrite app_nil_r_s in Hws.
  pose proof (scan_once_dumps v Hwf (S (String.length (dumps v))) "") as H.
  rewrite app_nil_r_s in H. rewrite Hws, H; [reflexivity| |reflexivity].
  pose proof (cost_le_length v). lia.
Qed.

Lemma join_ascii (items : list string) :
  List.Forall (fun s => all_chars is_ascii s = true) items ->
  all_chars is_ascii (join ", " items) = true.
Proof.
  induction 1 as [|s items Hs Hrest IH]; [reflexivity|].
  destruct items as [|t items]; [exact Hs|].
  rewrite join_sep_cons, !all_chars_app, Hs, IH. reflexivity.
Qed.

(** With [ensure_ascii] the text of a value is ASCII. *)
Lemma dumps_ascii (v : json) : all_chars is_ascii (dumps v) = true.
Proof.
  induction v as [| b | n | s | l IH | l IH] using json_nested_ind.
  - reflexivity.
  - destruct b; reflexivity.
  - apply repr_int_ascii.
  - cbn [dumps]. unfold dumps_str. cbn [all_chars].
    rewrite all_chars_app, escape_ascii. reflexivity.
  - rewrite dumps_arr, !all_chars_app, join_ascii; [reflexivity|].
    induction IH; cbn [List.map]; constructor; assumption.
  - rewrite dumps_obj, !all_chars_app, join_ascii; [reflexivity|].
    induction IH as [|[k x] l Hx Hl IHl]; cbn [List.map]; constructor;
      [|assumption].
    unfold member, dumps_str. cbn [fst snd] in *.
    rewrite !all_chars_app. cbn [all_chars].
    rewrite all_chars_app, escape_ascii, Hx. reflexivity.
Qed.

(** ** Frames *)

(** What [getMessage] reads once the four bytes of the prefix are there. *)
Lemma getMessage_frame (big_endian : bool) (b0 b1 b2 b3 : Byte.byte)
      (n : Z) (rest : list Byte.byte) :
  unpack_I big_endian [b0; b1; b2; b3] = Ok n ->
  getMessage big_endian (b0 :: b1 :: b2 :: b3 :: rest)
  = (let* message := utf8_decode (firstn (Z.to_nat n) rest) in loads message).
Proof.
  intros Hn. unfold getMessage.
  change (firstn 4 (b0 :: b1 :: b2 :: b3 :: rest)) with [b0; b1; b2; b3].
  change (skipn 4 (b0 :: b1 :: b2 :: b3 :: rest)) with rest.
  cbn [List.length Nat.eqb]. rewrite Hn. reflexivity.
Qed.


(** The prefix of an encoded message: four bytes that unpack to the number
    of characters of the text. *)
Lemma encodeMessage_Ok (big_endian : bool) (v : json) (e : encoded) :
  encodeMessage big_endian v = Ok e ->
  exists b0 b1 b2 b3,
    e = {| enc_length := [b0; b1; b2; b3]; enc_content := dumps v |}
    /\ unpack_I big_endian [b0; b1; b2; b3]
       = Ok (Z.of_nat (String.length (dumps v))).
Proof.
  unfold encodeMessage. intros H.
  destruct (Z.ltb_spec (Z.of_nat (String.length (dumps v))) (2 ^ 32)) as [Hlt|Hge].
  - destruct (unpack_pack big_endian (Z.of_nat (String.length (dumps v))))
      as (b0 & b1 & b2 & b3 & Hpack & Hunpack); [lia|].
    rewrite Hpack in H. cbn [bind] in H. inversion H. eauto 6.
  - unfold pack_I in H.
    destruct (Z.ltb_spec (Z.of_nat (String.length (dumps v))) (2 ^ 32)); [lia|].
    rewrite andb_false_r in H. discriminate H.
Qed.


(** X15: the length prefix is right for every message: it has four bytes,
    and they unpack to the number of bytes that follow it, although the
    code counts the characters of the text and not its bytes. *)
Theorem length_prefix_counts_bytes (big_endian : bool) (v : json) (e : encoded) :
  encodeMessage big_endian v = Ok e ->
  List.length (enc_length e) = 4
  /\ unpack_I big_endian (enc_length e)
     = Ok (Z.of_nat (List.length (utf8_encode (enc_content e))))
  /\ sendMessage e [] = enc_length e ++ utf8_encode (dumps v).
Proof.
  intros He.
  destruct (encodeMessage_Ok big_endian v e He)
    as (b0 & b1 & b2 & b3 & -> & Hunpack).
  cbn [enc_length enc_content]. split; [reflexivity|].
  split; [|reflexivity].
  now rewrite utf8_encode_ascii_length by apply dumps_ascii.
Qed.

Lemma length_prefix_counts_bytes_witness :
  List.length [Byte.x0b; Byte.x00; Byte.x00; Byte.x00] = 4
  /\ unpack_I false [Byte.x0b; Byte.x00; Byte.x00; Byte.x00]
     = Ok (Z.of_nat (List.length (utf8_encode (dumps accented_request))))
  /\ sendMessage {| enc_length := [Byte.x0b; Byte.x00; Byte.x00; Byte.x00];
                    enc_content := dumps accented_request |} []
     = [Byte.x0b; Byte.x00; Byte.x00; Byte.x00]
         ++ utf8_encode (dumps accented_request).
Proof.
  apply (length_prefix_counts_bytes false accented_request
           {| enc_length := [Byte.x0b; Byte.x00; Byte.x00; Byte.x00];
              enc_content := dumps accented_request |}).
  reflexivity.
Defined.



(** X17: input that ends inside the prefix is no clean end of input: with
    one to three bytes left, the run ends with the error of
    [struct.unpack] and nothing is written. *)
Theorem truncated_prefix_fails
        (big_endian : bool)
        (subprocess_run :
           list string -> option (list Byte.byte) -> gmap string string
           -> result completed)
        (home : string) (stdin : list Byte.byte) (environ : gmap string string) :
  0 < List.length stdin < 4 ->
  main big_endian subprocess_run home stdin environ = ([], Raise StructError).
Proof.
  intros H. unfold main, script.
  now rewrite (short_prefix_raises big_endian stdin H).
Qed.

Lemma truncated_prefix_fails_witness :
  main false (fun _ _ _ => Raise OSError) "/home/u" [Byte.x02; Byte.x00] ∅
  = ([], Raise StructError).
Proof.
  apply (truncated_prefix_fails false (fun _ _ _ => Raise OSError) "/home/u"
           [Byte.x02; Byte.x00] ∅).
  cbn [List.length]. lia.
Defined.

(** X18: the request the test harness writes is the request the host reads.
    The harness announces the greatest length there is in place of the
    real one, and the host then reads to the end of its input. *)
Theorem harness_request_read (big_endian : bool) (message : json) :
  distinct_keys message = true ->
  (Z.of_nat (String.length (dumps message)) < 2 ^ 32)%Z ->
  getMessage big_endian (harness_request message) = Ok message.
Proof.
  intros Hwf Hlen. unfold harness_request. cbn [app].
  rewrite (getMessage_frame big_endian _ _ _ _ 4294967295%Z)
    by (destruct big_endian; reflexivity).
  rewrite firstn_all2
    by (rewrite utf8_encode_ascii_length by apply dumps_ascii; lia).
  rewrite utf8_decode_encode. cbn [bind]. now apply loads_dumps.
Qed.

Lemma harness_request_read_witness :
  getMessage false (harness_request (JArr [JStr "otp"; JStr "totp/x"]))
  = Ok (JArr [JStr "otp"; JStr "totp/x"]).
Proof.
  apply (harness_request_read false (JArr [JStr "otp"; JStr "totp/x"]));
    vm_compute; reflexivity.
Defined.

(** X19: the test harness reads a response of the host back: it skips the
    four bytes of the prefix and parses the rest. *)
Theorem harness_response_read (big_endian : bool) (v : json) (e : encoded) :
  distinct_keys v = true ->
  encodeMessage big_endian v = Ok e ->
  harness_response (sendMessage e []) = Ok v.
Proof.
  intros Hwf He.
  destruct (encodeMessage_Ok big_endian v e He)
    as (b0 & b1 & b2 & b3 & -> & _).
  unfold harness_response, sendMessage. cbn [enc_length enc_content app].
  change (skipn 4 (b0 :: b1 :: b2 :: b3 :: ?l)) with l.
  rewrite utf8_decode_encode. cbn [bind]. now apply loads_dumps.
Qed.

Lemma harness_response_read_witness :
  harness_response
    (sendMessage {| enc_length := [Byte.x00; Byte.x00; Byte.x00; Byte.x0f];
                    enc_content := dumps (JObj [("exitCode", JInt 0)]) |} [])
  = Ok (JObj [("exitCode", JInt 0)]).
Proof.
  apply (harness_response_read true (JObj [("exitCode", JInt 0)])
           {| enc_length := [Byte.x00; Byte.x00; Byte.x00; Byte.x0f];
              enc_content := dumps (JObj [("exitCode", JInt 0)]) |});
    reflexivity.
Defined.

(** ** Whole runs *)

Section Runs.

Variable big_endian : bool.
Variable subprocess_run :
  list string -> option (list Byte.byte) -> gmap string string -> result completed.
Variable home : string.

Lemma all_str_strings (strs : list string) (l : list json) :
  all_str (List.map JStr strs ++ l)
  = (let* r := all_str l in Ok (strs ++ r)).
Proof.
  induction strs as [|s strs IH]; cbn [List.map app all_str].
  - now destruct (all_str l).
  - rewrite IH. now destruct (all_str l).
Qed.



(** The steps of a run that wrote something. *)
Lemma script_Ok (stdin : list Byte.byte) (environ : gmap string string)
      (out : list Byte.byte) :
  script big_endian subprocess_run home stdin environ = Ok out ->
  exists request opt_args pos_args std_input args proc text_out text_err e,
    getMessage big_endian stdin = Ok request
    /\ dispatch request = Ok (opt_args, pos_args, std_input)
    /\ all_str pos_args = Ok args
    /\ (py_bool std_input = true -> exists s, std_input = JStr s)
    /\ subprocess_run
         ("pass" :: opt_args ++ "--" :: args)
         (if py_bool std_input
          then match std_input with
               | JStr s => Some (utf8_encode s)
               | _ => None
               end
          else None)
         (command_env home environ) = Ok proc
    /\ utf8_decode (proc_stdout proc) = Ok text_out
    /\ utf8_decode (proc_stderr proc) = Ok text_err
    /\ encodeMessage big_endian
         (response_json
            {| exitCode := returncode proc; stdout := text_out;
               stderr := fst (cleanStderr text_err);
               errorCode := snd (cleanStderr text_err);
               version := VERSION |}) = Ok e
    /\ out = sendMessage e [].
Proof.
  unfold script. intros H.
  apply bind_Ok_inv in H as (request & Hreq & H).
  apply bind_Ok_inv in H as ([[opt_args pos_args] std_input] & Hdisp & H).
  apply bind_Ok_inv in H as (input & Hinput & H).
  apply bind_Ok_inv in H as (argv & Hargv & H).
  apply bind_Ok_inv in H as (proc & Hproc & H).
  apply bind_Ok_inv in H as (text_err & Herr & H).
  destruct (cleanStderr text_err) as [log code] eqn:Hclean.
  apply bind_Ok_inv in H as (text_out & Hout & H).
  apply bind_Ok_inv in H as (e & He & H).
  inversion H; subst out; clear H.
  unfold command_line, COMMAND in Hargv.
  change ([JStr "pass"] ++ List.map JStr opt_args ++ [JStr "--"] ++ pos_args)
    with (List.map JStr ["pass"] ++ List.map JStr opt_args
            ++ List.map JStr ["--"] ++ pos_args) in Hargv.
  rewrite !all_str_strings in Hargv.
  destruct (all_str pos_args) as [args| |] eqn:Hargs; try discriminate Hargv.
  cbn [bind] in Hargv. inversion Hargv; subst argv; clear Hargv.
  exists request, opt_args, pos_args, std_input, args, proc, text_out, text_err, e.
  split; [exact Hreq|]. split; [exact Hdisp|]. split; [exact Hargs|].
  assert (Hin : (py_bool std_input = true -> exists s, std_input = JStr s)
                /\ input = (if py_bool std_input
                            then match std_input with
                                 | JStr s => Some (utf8_encode s)
                                 | _ => None
                                 end
                            else None)).
  { destruct (py_bool std_input).
    - destruct std_input; try discriminate Hinput.
      inversion Hinput. split; [eauto|reflexivity].
    - inversion Hinput. split; [discriminate|reflexivity]. }
  destruct Hin as [Hstr ->].
  split; [exact Hstr|]. split; [exact Hproc|]. split; [exact Hout|].
  split; [exact Herr|]. rewrite Hclean. cbn [fst snd].
  split; [exact He|reflexivity].
Qed.


(** X21: the tool is only ever run as [pass], with one of six fixed option
    lists, the separator, and one or two arguments from the request.  Text
    from the request therefore never stands where the tool looks for
    options. *)
Theorem tool_invocation
        (stdin : list Byte.byte) (environ : gmap string string)
        (out : list Byte.byte) :
  main big_endian subprocess_run home stdin environ = (out, Ok ()) ->
  exists opt_args args input proc,
    In opt_args OPTION_LISTS
    /\ 1 <= List.length args <= 2
    /\ subprocess_run ("pass" :: opt_args ++ "--" :: args) input
         (command_env home environ) = Ok proc.
Proof.
  unfold main. intros H.
  destruct (script big_endian subprocess_run home stdin environ) as [o| |] eqn:E;
    inversion H; subst.
  apply script_Ok in E
    as (request & opt_args & pos_args & std_input & args & proc & text_out
        & text_err & e & _ & Hdisp & Hargs & _ & Hproc & _).
  eexists opt_args, args, _, proc.
  assert (Hlen : List.length args = List.length pos_args).
  { clear -Hargs. revert args Hargs.
    induction pos_args as [|x l IH]; intros args H.
    - inversion H. reflexivity.
    - destruct x; try discriminate H. cbn [all_str] in H.
      destruct (all_str l) as [r| |]; try discriminate H.
      inversion H. cbn [List.length]. now rewrite (IH r). }
  rewrite Hlen. split; [|split; [|exact Hproc]].
  - unfold dispatch, COMMAND_ARGS in Hdisp. invert_ok; rewrite ?app_nil_r;
      cbn [OPTION_LISTS In]; try tauto.
    all: match goal with
         | |- context [if ?b then _ else _] => destruct b; tauto
         end.
  - unfold dispatch, COMMAND_ARGS in Hdisp. invert_ok; cbn [List.length]; lia.
Qed.

(** X22: a request to insert runs [pass insert -m -- path] with the third
    element as the input of the tool, or with no input when that element
    is the empty string; further elements are ignored. *)
Theorem insert_invocation
        (stdin : list Byte.byte) (environ : gmap string string)
        (path secret : string) (more : list json) (out : list Byte.byte) :
  getMessage big_endian stdin
  = Ok (JArr (JStr "insert" :: JStr path :: JStr secret :: more)) ->
  main big_endian subprocess_run home stdin environ = (out, Ok ()) ->
  exists proc,
    subprocess_run ["pass"; "insert"; "-m"; "--"; path]
      (if String.eqb secret EmptyString then None else Some (utf8_encode secret))
      (command_env home environ) = Ok proc.
Proof.
  unfold main. intros Hreq H.
  destruct (script big_endian subprocess_run home stdin environ) as [o| |] eqn:E;
    inversion H; subst.
  apply script_Ok in E
    as (request & opt_args & pos_args & std_input & args & proc & text_out
        & text_err & e & Hreq' & Hdisp & Hargs & _ & Hproc & _).
  rewrite Hreq in Hreq'. inversion Hreq'; subst request. clear Hreq'.
  cbn in Hdisp. inversion Hdisp; subst. clear Hdisp.
  cbn in Hargs. inversion Hargs; subst. clear Hargs.
  exists proc. cbn [py_bool] in Hproc.
  destruct (String.eqb secret EmptyString); exact Hproc.
Qed.


End Runs.


Lemma tool_invocation_witness :
  exists opt_args args input proc,
    In opt_args OPTION_LISTS
    /\ 1 <= List.length args <= 2
    /\ quiet_tool ("pass" :: opt_args ++ "--" :: args) input
         (command_env "/home/u" ∅) = Ok proc.
Proof.
  apply (tool_invocation false quiet_tool "/home/u" insert_frame ∅
           (fst (main false quiet_tool "/home/u" insert_frame ∅))).
  vm_compute. reflexivity.
Defined.

Lemma insert_invocation_witness :
  exists proc,
    quiet_tool ["pass"; "insert"; "-m"; "--"; "/a"]
      (if String.eqb "s" EmptyString then None else Some (utf8_encode "s"))
      (command_env "/home/u" ∅) = Ok proc.
Proof.
  apply (insert_invocation false quiet_tool "/home/u" insert_frame ∅
           "/a" "s" []
           (fst (main false quiet_tool "/home/u" insert_frame ∅))).
  - vm_compute. reflexivity.
  - vm_compute. reflexivity.
Defined.

